(** * radsniff statistics core and the proto_arp listener

    Shallow embedding of
    - [src/include/radsniff.h]: the data model of the sniffer (constants,
      [rs_latency_t], [rs_stats_t], [rs_request_t], [struct rs]);
    - [src/modules/proto_arp/proto_arp.c]: [arp_socket_recv],
      [header_names], [arp_socket_decode], [arp_socket_parse].

    The file is split in two parts: all definitions first (one module per
    translation unit), then the theorems about them. *)

From Stdlib Require Import ZArith QArith Lia List String.
From stdpp Require Import base gmap list strings.

(* ===================================================================== *)
(** * Part I: definitions                                                  *)
(* ===================================================================== *)

Module Radsniff.

Local Open Scope Z_scope.

(** ** Constants of radsniff.h (lines 40-43) *)

Definition RS_DEFAULT_SECRET : string := "testing123".
Definition RS_DEFAULT_TIMEOUT : Z := 6.
Definition RS_FORCE_YIELD : Z := 100.
Definition RS_RETRANSMIT_MAX : Z := 5.

(** ** Machine numbers

    [uint64_t] counters are integers with their wrap-around at 2^64; [int]
    wraps at 32 bits, two's complement. [double] and [long double] members
    are held as exact rationals: the arithmetic on them below neither
    rounds nor produces infinities or NaN. Times are seconds in [Q]. *)

Definition uint64 (z : Z) : Z := z mod 2 ^ 64.

Definition int32 (z : Z) : Z := (z + 2 ^ 31) mod 2 ^ 32 - 2 ^ 31.

(** ** [rs_latency_t] (lines 78-99) *)

(** The anonymous struct [interval]; [rt] has [RS_RETRANSMIT_MAX + 1]
    elements. *)
Record rs_interval := {
  linked : Z;
  unlinked : Z;
  reused : Z;
  rt : list Z;
  lost : Z;
  latency_total : Q;
  latency_average : Q;
  latency_high : Q;
  latency_low : Q
}.

Record rs_latency_t := {
  intervals : Z;
  latency_cma : Q;
  latency_cma_count : Z;
  interval : rs_interval
}.

(** ** [rs_stats_t] (lines 105-118)

    [gauge] is [rs_counters_t.type]; the three arrays have [PW_CODE_MAX]
    elements. *)
Record rs_stats_t := {
  stats_intervals : Z;
  gauge : list Z;
  exchange : list rs_latency_t;
  forward : list rs_latency_t;
  quiet : Q
}.

(** ** [stats_out_t] and [struct rs] (lines 57-62, 169-198) *)

Inductive stats_out_t := RS_STATS_OUT_COLLECTD | RS_STATS_OUT_STDIO.

Record rs := {
  from_file : bool;
  from_dev : bool;
  from_stdin : bool;
  to_file : bool;
  to_stdout : bool;
  from_auto : bool;
  do_sort : bool;
  dequeue : list bool;
  radius_secret : string;
  pcap_filter : option string;
  radius_filter : option string;
  stats_interval : Z;
  stats_out : stats_out_t;
  stats_timeout : Z
}.

(** ** Packets and requests *)

(** Modelled from the spec: the packet envelope (section 3,
    CapturedPacket), which stands for the [RADIUS_PACKET] of libradius that
    radsniff.h only names: raw bytes, capture timestamp, source, decoded
    code, identifier and the two endpoints (address, port). *)
Record CapturedPacket := {
  raw : list Byte.byte;
  timestamp : Q;
  source : Z;
  code : nat;
  ident : Z;
  client : Z * Z;
  server : Z * Z
}.

(** Modelled from the spec: the correlation key (glossary): the endpoint
    pair and the protocol transaction identifier. *)
Abbreviation key := ((Z * Z) * (Z * Z) * Z)%type.

Definition correlation_key (p : CapturedPacket) : key :=
  (client p, server p, ident p).

(** The two arrays of [rs_stats_t] a latency entry can live in. *)
Inductive direction := Exchange | Forward.

(** [rs_request_t] (lines 125-142). [event] is the deadline of the armed
    expiry timer, [None] for no timer; [in_] is the member [in];
    [linked_pkt] is the member [linked], [None] for NULL; [stats_req] and
    [stats_rsp] point into the arrays of [rs_stats_t] and are held as the
    array and the index. *)
Record rs_request_t := {
  id : Z;
  event : option Q;
  in_ : Z;
  packet : CapturedPacket;
  linked_pkt : option CapturedPacket;
  rt_req : Z;
  rt_rsp : Z;
  stats_req : direction * nat;
  stats_rsp : option (direction * nat);
  forced_cleanup : bool
}.

(** Modelled from the spec: what the external codec decides (sections 4.4
    and 6), missing with libradius: the number of protocol codes
    [PW_CODE_MAX], which codes are request-typed (the others are
    response-typed), and the content fingerprint of a packet (a digest, as a
    number). *)
Class codec := {
  PW_CODE_MAX : nat;
  request_typed : nat -> bool;
  fingerprint : CapturedPacket -> Z
}.

(** ** StatsAggregator *)

Definition rt_zero : list Z := replicate (Z.to_nat (RS_RETRANSMIT_MAX + 1)) 0.

(** The interval-scoped members at their reset values. The zero of
    [latency_low] and of [latency_average] stands for "no data". *)
Definition interval_zero : rs_interval :=
  {| linked := 0; unlinked := 0; reused := 0; rt := rt_zero; lost := 0;
     latency_total := 0%Q; latency_average := 0%Q;
     latency_high := 0%Q; latency_low := 0%Q |}.

Definition latency_zero : rs_latency_t :=
  {| intervals := 0; latency_cma := 0%Q; latency_cma_count := 0;
     interval := interval_zero |}.

Definition stats_zero `{codec} : rs_stats_t :=
  {| stats_intervals := 0;
     gauge := replicate PW_CODE_MAX 0;
     exchange := replicate PW_CODE_MAX latency_zero;
     forward := replicate PW_CODE_MAX latency_zero;
     quiet := 0%Q |}.

(** Modelled from the spec: the outcome of a classification (section 4.5:
    linked with its latency, unlinked, reused, retransmit, lost); the
    function that consumes it is missing with radsniff.c. A retransmit
    carries the retransmit count, from which the aggregator takes the
    bucket. *)
Inductive outcome :=
| OLinked (latency : Q)
| OUnlinked
| OReused
| ORetransmit (count : Z)
| OLost.

(** Modelled from the spec: the histogram bucket of a retransmit count
    (section 3: a histogram bucket index is min(retransmit_count, MAX));
    missing with radsniff.c. *)
Definition rt_bucket (count : Z) : nat := Z.to_nat (Z.min count RS_RETRANSMIT_MAX).

Definition set_interval (b : rs_latency_t) (iv : rs_interval) : rs_latency_t :=
  {| intervals := intervals b; latency_cma := latency_cma b;
     latency_cma_count := latency_cma_count b; interval := iv |}.

(** Modelled from the spec: recording the latency of a linked pair (section
    4.5), missing with radsniff.c: the cumulative moving average rule
    cma' = cma + (latency - cma) / (count + 1), count' = count + 1; the
    interval sum; the interval average latency_total / linked; the running
    maximum and the running minimum, whose zero means no data yet. *)
Definition record_latency (lat : Q) (b : rs_latency_t) : rs_latency_t :=
  let iv := interval b in
  let n := uint64 (linked iv + 1) in
  let total := (latency_total iv + lat)%Q in
  {| intervals := intervals b;
     latency_cma :=
       (latency_cma b
        + (lat - latency_cma b) / inject_Z (uint64 (latency_cma_count b + 1)))%Q;
     latency_cma_count := uint64 (latency_cma_count b + 1);
     interval :=
       {| linked := n; unlinked := unlinked iv; reused := reused iv;
          rt := rt iv; lost := lost iv;
          latency_total := total;
          latency_average := (total / inject_Z n)%Q;
          latency_high :=
            if Qle_bool lat (latency_high iv) then latency_high iv else lat;
          latency_low :=
            if Qeq_bool (latency_low iv) 0 || Qle_bool lat (latency_low iv)
            then lat else latency_low iv |} |}.

(** Modelled from the spec: the effect of one outcome on its LatencyStats
    (section 4.5, on_classification), missing with radsniff.c. *)
Definition apply_outcome (o : outcome) (b : rs_latency_t) : rs_latency_t :=
  let iv := interval b in
  match o with
  | OLinked lat => record_latency lat b
  | OUnlinked =>
      set_interval b
        {| linked := linked iv; unlinked := uint64 (unlinked iv + 1);
           reused := reused iv; rt := rt iv; lost := lost iv;
           latency_total := latency_total iv;
           latency_average := latency_average iv;
           latency_high := latency_high iv; latency_low := latency_low iv |}
  | OReused =>
      set_interval b
        {| linked := linked iv; unlinked := unlinked iv;
           reused := uint64 (reused iv + 1); rt := rt iv; lost := lost iv;
           latency_total := latency_total iv;
           latency_average := latency_average iv;
           latency_high := latency_high iv; latency_low := latency_low iv |}
  | ORetransmit n =>
      set_interval b
        {| linked := linked iv; unlinked := unlinked iv; reused := reused iv;
           rt := alter (fun x => uint64 (x + 1)) (rt_bucket n) (rt iv);
           lost := lost iv;
           latency_total := latency_total iv;
           latency_average := latency_average iv;
           latency_high := latency_high iv; latency_low := latency_low iv |}
  | OLost =>
      set_interval b
        {| linked := linked iv; unlinked := unlinked iv; reused := reused iv;
           rt := rt iv; lost := uint64 (lost iv + 1);
           latency_total := latency_total iv;
           latency_average := latency_average iv;
           latency_high := latency_high iv; latency_low := latency_low iv |}
  end.

(** The entry [d][c] of the statistics ([exchange[c]] or [forward[c]]), and
    its update in place; an index outside the array changes nothing. *)
Definition bucket (d : direction) (c : nat) (s : rs_stats_t) : option rs_latency_t :=
  match d with
  | Exchange => exchange s !! c
  | Forward => forward s !! c
  end.

Definition update_bucket (d : direction) (c : nat)
    (f : rs_latency_t -> rs_latency_t) (s : rs_stats_t) : rs_stats_t :=
  match d with
  | Exchange =>
      {| stats_intervals := stats_intervals s; gauge := gauge s;
         exchange := alter f c (exchange s); forward := forward s;
         quiet := quiet s |}
  | Forward =>
      {| stats_intervals := stats_intervals s; gauge := gauge s;
         exchange := exchange s; forward := alter f c (forward s);
         quiet := quiet s |}
  end.

(** Modelled from the spec: on_classification(code, direction, outcome)
    (section 4.5), missing with radsniff.c: the outcome is applied to the
    LatencyStats of the code and direction. *)
Definition on_classification (c : nat) (d : direction) (o : outcome)
    (s : rs_stats_t) : rs_stats_t :=
  update_bucket d c (apply_outcome o) s.

(** Modelled from the spec: the reset of one LatencyStats at a tick
    (section 4.5), missing with radsniff.c: the interval-scoped members go
    back to their zero values, the cumulative members persist. *)
Definition reset_interval (b : rs_latency_t) : rs_latency_t :=
  set_interval b interval_zero.

(** Modelled from the spec: the emission tick (section 4.5, on_tick),
    missing with radsniff.c: it returns a copy of the statistics and resets
    the interval-scoped members of every LatencyStats in both directions.
    The result is the snapshot and the statistics afterwards. *)
Definition on_tick (s : rs_stats_t) : rs_stats_t * rs_stats_t :=
  (s,
   {| stats_intervals := stats_intervals s; gauge := gauge s;
      exchange := reset_interval <$> exchange s;
      forward := reset_interval <$> forward s;
      quiet := quiet s |}).

(** Modelled from the spec: what the aggregator is given, one at a time
    (section 2, data flow): a classification event or a tick. *)
Inductive agg_event :=
| AClassified (c : nat) (d : direction) (o : outcome)
| ATick.

Definition agg_step (s : rs_stats_t) (e : agg_event) : rs_stats_t :=
  match e with
  | AClassified c d o => on_classification c d o s
  | ATick => snd (on_tick s)
  end.

Definition aggregate (es : list agg_event) (s : rs_stats_t) : rs_stats_t :=
  fold_left agg_step es s.

(** The latencies recorded for entry [d][c], in order. *)
Definition same_bucket (d d' : direction) (c c' : nat) : bool :=
  match d, d' with
  | Exchange, Exchange | Forward, Forward => Nat.eqb c c'
  | _, _ => false
  end.

Definition latencies_of (d : direction) (c : nat) (es : list agg_event) : list Q :=
  omap (fun e => match e with
                 | AClassified c' d' (OLinked lat) =>
                     if same_bucket d d' c c' then Some lat else None
                 | _ => None
                 end) es.

Definition Qsum (l : list Q) : Q := fold_right Qplus 0%Q l.

Definition mean (l : list Q) : Q := (Qsum l / inject_Z (Z.of_nat (length l)))%Q.

(** ** RequestTable *)

Abbreviation RequestTable := (gmap key rs_request_t).

(** Modelled from the spec: the table contract (section 4.3), missing with
    radsniff.c: [insert] fails on a key that is held ([None] stands for
    DuplicateKey), [find] looks a key up, [remove] returns the entry and the
    table without it. *)
Definition insert_request (k : key) (r : rs_request_t) (t : RequestTable)
    : option RequestTable :=
  match t !! k with
  | Some _ => None
  | None => Some (<[k := r]> t)
  end.

Definition find (k : key) (t : RequestTable) : option rs_request_t := t !! k.

Definition remove (k : key) (t : RequestTable)
    : option rs_request_t * RequestTable :=
  (t !! k, delete k t).

(** ** Correlator *)

(** Modelled from the spec: the state of the core (section 2): the
    RequestTable, the statistics of the aggregator and the process-local
    counter that numbers the requests (section 3). *)
Record core := {
  table : RequestTable;
  stats : rs_stats_t;
  next_id : Z
}.

Definition core_zero `{codec} : core :=
  {| table := ∅; stats := stats_zero; next_id := 0 |}.

(** Modelled from the spec: the classes of section 4.4, and the
    internal-consistency error of section 7. *)
Inductive classification :=
| CNewRequest
| CRetransmit
| CReused
| CLinked
| CUnlinked
| CInternalError.

(** Modelled from the spec: an entry is Pending until a packet is linked
    to it (section 4.4). *)
Definition pending (r : rs_request_t) : bool :=
  match linked_pkt r with
  | None => true
  | Some _ => false
  end.

(** [conf->dequeue[c]], false outside the array. *)
Definition dequeue_for (conf : rs) (c : nat) : bool :=
  default false (dequeue conf !! c).

(** Modelled from the spec: the entry a new request creates (section 4.4,
    rule 1), missing with radsniff.c: Pending, numbered by the counter,
    its expiry timer armed at now + timeout, its statistics those of its
    code. *)
Definition new_request (conf : rs) (now : Q) (p : CapturedPacket) (n : Z)
    : rs_request_t :=
  {| id := n;
     event := Some (now + inject_Z (stats_timeout conf))%Q;
     in_ := source p;
     packet := p;
     linked_pkt := None;
     rt_req := 0;
     rt_rsp := 0;
     stats_req := (Exchange, code p);
     stats_rsp := None;
     forced_cleanup := false |}.

Definition set_rt_req (r : rs_request_t) (n : Z) : rs_request_t :=
  {| id := id r; event := event r; in_ := in_ r; packet := packet r;
     linked_pkt := linked_pkt r; rt_req := n; rt_rsp := rt_rsp r;
     stats_req := stats_req r; stats_rsp := stats_rsp r;
     forced_cleanup := forced_cleanup r |}.

Definition set_rt_rsp (r : rs_request_t) (n : Z) : rs_request_t :=
  {| id := id r; event := event r; in_ := in_ r; packet := packet r;
     linked_pkt := linked_pkt r; rt_req := rt_req r; rt_rsp := n;
     stats_req := stats_req r; stats_rsp := stats_rsp r;
     forced_cleanup := forced_cleanup r |}.

(** The entry after its link to [p]: timer cancelled, [linked] set. *)
Definition set_linked (r : rs_request_t) (p : CapturedPacket) : rs_request_t :=
  {| id := id r; event := None; in_ := in_ r; packet := packet r;
     linked_pkt := Some p; rt_req := rt_req r; rt_rsp := rt_rsp r;
     stats_req := stats_req r; stats_rsp := Some (Exchange, code p);
     forced_cleanup := forced_cleanup r |}.

Definition set_forced_cleanup (r : rs_request_t) : rs_request_t :=
  {| id := id r; event := event r; in_ := in_ r; packet := packet r;
     linked_pkt := linked_pkt r; rt_req := rt_req r; rt_rsp := rt_rsp r;
     stats_req := stats_req r; stats_rsp := stats_rsp r;
     forced_cleanup := true |}.

(** Modelled from the spec: the classification of one packet (section 4.4,
    rules 1 to 5), missing with radsniff.c. [now] is the clock of the loop.
    - no entry, request-typed: a new Pending entry (rule 1);
    - entry, request-typed, same fingerprint: retransmission, the counter
      is incremented and the histogram bucket bumped, the timer is left as
      it is (rule 2); the counter stops at [RS_RETRANSMIT_MAX], the last
      bucket (section 8: retransmits_of_request is min(K - 1, MAX_BUCKET)
      after K identical requests);
    - entry, request-typed, other fingerprint: reused identifier, a fresh
      entry replaces the old one, which is neither linked nor lost (rule 3);
    - Pending entry, response-typed: linked, timer cancelled, latency
      recorded, entry removed unless its code is kept (rule 4);
    - response-typed and no Pending entry matches: unlinked, no entry
      created (rule 5); where the key is held by an entry that was kept
      after its link, the duplicate is also counted in the [rt_rsp] of that
      entry (rule 4). *)
Definition on_packet `{codec} (conf : rs) (now : Q) (p : CapturedPacket)
    (s : core) : core * classification :=
  let k := correlation_key p in
  match find k (table s) with
  | None =>
      if request_typed (code p) then
        match insert_request k (new_request conf now p (next_id s)) (table s) with
        | Some t =>
            ({| table := t; stats := stats s;
                next_id := int32 (next_id s + 1) |}, CNewRequest)
        | None => (s, CInternalError)
        end
      else
        ({| table := table s;
            stats := on_classification (code p) Exchange OUnlinked (stats s);
            next_id := next_id s |}, CUnlinked)
  | Some r =>
      if request_typed (code p) then
        if decide (fingerprint p = fingerprint (packet r)) then
          let n := Z.min (uint64 (rt_req r + 1)) RS_RETRANSMIT_MAX in
          ({| table := <[k := set_rt_req r n]> (table s);
              stats := on_classification (snd (stats_req r)) (fst (stats_req r))
                         (ORetransmit n) (stats s);
              next_id := next_id s |}, CRetransmit)
        else
          match insert_request k (new_request conf now p (next_id s))
                  (snd (remove k (table s))) with
          | Some t =>
              ({| table := t;
                  stats := on_classification (code p) Exchange OReused (stats s);
                  next_id := int32 (next_id s + 1) |}, CReused)
          | None => (s, CInternalError)
          end
      else if pending r then
        let lat := (timestamp p - timestamp (packet r))%Q in
        ({| table := if dequeue_for conf (code p)
                     then snd (remove k (table s))
                     else <[k := set_linked r p]> (table s);
            stats := on_classification (snd (stats_req r)) (fst (stats_req r))
                       (OLinked lat) (stats s);
            next_id := next_id s |}, CLinked)
      else
        ({| table := <[k := set_rt_rsp r (uint64 (rt_rsp r + 1))]> (table s);
            stats := on_classification (code p) Exchange OUnlinked (stats s);
            next_id := next_id s |}, CUnlinked)
  end.


(** Modelled from the spec: the removal of an entry (section 3, lifecycle;
    section 4.4, expiry firing), missing with radsniff.c: an entry that is
    still Pending is counted lost for its code unless [forced_cleanup] is
    set; the entry leaves the table. *)
Definition teardown (k : key) (r : rs_request_t) (s : core) : core :=
  {| table := snd (remove k (table s));
     stats := if pending r && negb (forced_cleanup r)
              then on_classification (snd (stats_req r)) (fst (stats_req r))
                     OLost (stats s)
              else stats s;
     next_id := next_id s |}.

(** Modelled from the spec: expiry firing (sections 4.2 and 4.4), missing
    with radsniff.c: the timer of the entry under [k] is served with the
    clock at [now]; an armed timer fires at or after its deadline and tears
    the entry down, a cancelled or absent one does nothing. *)
Definition on_expiry (now : Q) (k : key) (s : core) : core :=
  match find k (table s) with
  | Some r =>
      match event r with
      | Some deadline => if Qle_bool deadline now then teardown k r s else s
      | None => s
      end
  | None => s
  end.

(** Modelled from the spec: eviction by policy (section 3), missing with
    radsniff.c: the entry is flagged [forced_cleanup] and torn down. *)
Definition evict (k : key) (s : core) : core :=
  match find k (table s) with
  | Some r => teardown k (set_forced_cleanup r) s
  | None => s
  end.

(** Modelled from the spec: the events of the single loop (section 5): a
    packet, the service of a timer, an eviction, a tick; and a run of
    them. *)
Inductive loop_event :=
| EvPacket (now : Q) (p : CapturedPacket)
| EvExpiry (now : Q) (k : key)
| EvEvict (k : key)
| EvTick.

Definition step `{codec} (conf : rs) (s : core) (e : loop_event) : core :=
  match e with
  | EvPacket now p => fst (on_packet conf now p s)
  | EvExpiry now k => on_expiry now k s
  | EvEvict k => evict k s
  | EvTick =>
      {| table := table s; stats := snd (on_tick (stats s));
         next_id := next_id s |}
  end.

Definition run `{codec} (conf : rs) (es : list loop_event) (s : core) : core :=
  fold_left (step conf) es s.

(** ** Sample inputs *)

(** A codec with 256 codes whose request-typed codes are 1, 4, 12, 40 and
    43, and whose fingerprint reads the raw bytes as a number. *)
Definition sample_codec : codec :=
  {| PW_CODE_MAX := 256;
     request_typed := fun c => bool_decide (c ∈ [1; 4; 12; 40; 43]%nat);
     fingerprint := fun p =>
       fold_right (fun b a => Z.of_N (Byte.to_N b) + 256 * a) 0 (raw p) |}.

Definition sample_conf : rs :=
  {| from_file := true; from_dev := false; from_stdin := false;
     to_file := false; to_stdout := false; from_auto := false;
     do_sort := false;
     dequeue := replicate 256 false;
     radius_secret := RS_DEFAULT_SECRET;
     pcap_filter := None; radius_filter := None;
     stats_interval := 1;
     stats_out := RS_STATS_OUT_STDIO;
     stats_timeout := RS_DEFAULT_TIMEOUT |}.

(** A request of code 1 with identifier 7, and a response of code 2 to
    it, 50 ms later. *)
Definition sample_request : CapturedPacket :=
  {| raw := [Byte.x01; Byte.x07]; timestamp := 0%Q; source := 0;
     code := 1; ident := 7; client := (10, 1024); server := (20, 1812) |}.

Definition sample_response : CapturedPacket :=
  {| raw := [Byte.x02; Byte.x07]; timestamp := (50 # 1000)%Q; source := 0;
     code := 2; ident := 7; client := (10, 1024); server := (20, 1812) |}.

(** The same response seen at 2.1 s. *)
Definition sample_late_response : CapturedPacket :=
  {| raw := [Byte.x02; Byte.x07]; timestamp := (21 # 10)%Q; source := 0;
     code := 2; ident := 7; client := (10, 1024); server := (20, 1812) |}.

(** Another request under the same key, with other content. *)
Definition sample_other_request : CapturedPacket :=
  {| raw := [Byte.x01; Byte.x07; Byte.xff]; timestamp := 3%Q; source := 0;
     code := 1; ident := 7; client := (10, 1024); server := (20, 1812) |}.

(** A state whose only entry is the sample request, flagged for forced
    cleanup. *)
Definition sample_flagged_core : core :=
  {| table := {[ correlation_key sample_request
                   := set_forced_cleanup
                        (new_request sample_conf 0%Q sample_request 0) ]};
     stats := @stats_zero sample_codec;
     next_id := 1 |}.


(** The configuration that removes every request at its response. *)
Definition sample_conf_dequeue : rs :=
  {| from_file := true; from_dev := false; from_stdin := false;
     to_file := false; to_stdout := false; from_auto := false;
     do_sort := false;
     dequeue := replicate 256 true;
     radius_secret := RS_DEFAULT_SECRET;
     pcap_filter := None; radius_filter := None;
     stats_interval := 1;
     stats_out := RS_STATS_OUT_STDIO;
     stats_timeout := RS_DEFAULT_TIMEOUT |}.

End Radsniff.

Module ProtoArp.

Local Open Scope Z_scope.

(** ** Bytes and C object layout *)

(** The numeric value of a byte of packet memory ([uint8_t]). *)
Definition u8 (b : Byte.byte) : Z := Z.of_N (Byte.to_N b).

(** [p[i]], reading 0 where the model has no byte (in C this would be a
    read outside the captured buffer). *)
Definition byte_at (mem : list Byte.byte) (i : Z) : Z :=
  if i <? 0 then 0 else default 0 (u8 <$> mem !! Z.to_nat i).

(** Byte order of the host the server runs on. *)
Inductive endian := LittleEndian | BigEndian.

(** Loading a [uint16_t] from memory in the byte order of the host. *)
Definition load16 (e : endian) (mem : list Byte.byte) (off : Z) : Z :=
  match e with
  | BigEndian => byte_at mem off * 256 + byte_at mem (off + 1)
  | LittleEndian => byte_at mem off + byte_at mem (off + 1) * 256
  end.

(** [ntohs]: network (big endian) to host order, on a 16-bit value. *)
Definition ntohs (e : endian) (v : Z) : Z :=
  match e with
  | BigEndian => v
  | LittleEndian => Z.lor (Z.shiftl (Z.land v 255) 8) (Z.land (Z.shiftr v 8) 255)
  end.

(** One member of a C struct: its name, the size of its element type (which
    is also its alignment for the integer types used here) and the number
    of elements (1 for a scalar). *)
Record c_member := { m_name : string; m_elem : Z; m_count : Z }.

Definition align_up (off a : Z) : Z := ((off + a - 1) / a) * a.

(** Offsets of the members of a struct laid out in declaration order, each
    aligned to its element size; returns the members with their offsets and
    the end of the last member. *)
Fixpoint layout (ms : list c_member) (off : Z) : list (string * Z) * Z :=
  match ms with
  | [] => ([], off)
  | m :: rest =>
      let o := align_up off (m_elem m) in
      let '(l, e) := layout rest (o + m_elem m * m_count m) in
      ((m_name m, o) :: l, e)
  end.

Definition struct_align (ms : list c_member) : Z :=
  fold_right (fun m a => Z.max (m_elem m) a) 1 ms.

(** [sizeof]: the end of the last member rounded up to the alignment of the
    struct. *)
Definition sizeof (ms : list c_member) : Z :=
  align_up (snd (layout ms 0)) (struct_align ms).

Fixpoint assoc_off (n : string) (l : list (string * Z)) : Z :=
  match l with
  | [] => 0
  | (k, o) :: rest => if String.eqb k n then o else assoc_off n rest
  end.

Definition offsetof (ms : list c_member) (n : string) : Z :=
  assoc_off n (fst (layout ms 0)).

(** ** Constants of the system headers *)

(** [ETHER_ADDR_LEN] of <net/ethernet.h>. *)
Definition ETHER_ADDR_LEN : Z := 6.

(** [ARPHRD_ETHER] of <net/if_arp.h>. *)
Definition ARPHRD_ETHER : Z := 1.

(** ** [struct arphdr_ether_ipv4] (proto_arp.c, lines 44-54) *)

Definition arphdr_ether_ipv4 : list c_member :=
  [ {| m_name := "ar_hrd"; m_elem := 2; m_count := 1 |};
    {| m_name := "ar_pro"; m_elem := 2; m_count := 1 |};
    {| m_name := "ar_hln"; m_elem := 1; m_count := 1 |};
    {| m_name := "ar_pln"; m_elem := 1; m_count := 1 |};
    {| m_name := "ar_op";  m_elem := 1; m_count := 1 |};
    {| m_name := "ar_sha"; m_elem := 1; m_count := ETHER_ADDR_LEN |};
    {| m_name := "ar_spa"; m_elem := 1; m_count := 4 |};
    {| m_name := "ar_tha"; m_elem := 1; m_count := ETHER_ADDR_LEN |};
    {| m_name := "ar_tpa"; m_elem := 1; m_count := 4 |} ].

(** ** What the listener gets from its environment *)

(** [struct pcap_pkthdr]: [caplen] and [len] (here [wire_len]). *)
Record pcap_pkthdr := { caplen : Z; wire_len : Z }.

(** The members of [RADIUS_PACKET] that [arp_socket_recv] writes after
    [talloc_zero]; [data] is [None] for a NULL pointer. *)
Record RADIUS_PACKET := {
  dst_port : Z;
  data_len : Z;
  data : option (list Byte.byte)
}.

(** The calls [arp_socket_recv] makes, in order. *)
Inductive recv_call :=
| CError (rcode : Z)                       (* ERROR("Error requesting next packet ...") *)
| CTallocZero (ok : bool)                  (* talloc_zero(listener, RADIUS_PACKET) *)
| CTallocMemdup (n : Z)                    (* talloc_memdup(packet, data, n) *)
| CDebug                                   (* DEBUG("ARP received on interface %s") *)
| CRequestReceive (p : RADIUS_PACKET) (ok : bool)   (* request_receive(listener, packet, ...) *)
| CRadFree.                                (* rad_free(&packet) *)

(** The environment of one call of [arp_socket_recv]: the layout facts that
    come from headers outside this file and the answers of the functions it
    calls. [sizeof_ethernet_header] is [sizeof(struct ethernet_header)]. *)
Record recv_env := {
  host : endian;
  sizeof_ethernet_header : Z;
  pcap_rcode : Z;                            (* pcap_next_ex(handle, &header, &data) *)
  pcap_header : pcap_pkthdr;
  pcap_data : list Byte.byte;
  talloc_zero_ok : bool;
  talloc_memdup_ok : bool;
  request_receive : RADIUS_PACKET -> bool
}.

(** [arp->member] for a 16-bit member and for an 8-bit member, with [arp]
    at [data] plus the size of the Ethernet header. *)
Definition arp16 (w : recv_env) (member : string) : Z :=
  load16 (host w) (pcap_data w)
         (sizeof_ethernet_header w + offsetof arphdr_ether_ipv4 member).

Definition arp8 (w : recv_env) (member : string) : Z :=
  byte_at (pcap_data w)
          (sizeof_ethernet_header w + offsetof arphdr_ether_ipv4 member).

(** ** [arp_socket_recv] (proto_arp.c, lines 103-155)

    Returns the return value of the function and the calls it made. *)
Definition arp_socket_recv (w : recv_env) : Z * list recv_call :=
  let rcode := pcap_rcode w in
  if rcode =? 0 then (0, [])
  else if rcode <? 0 then (0, [CError rcode])
  else if caplen (pcap_header w)
          <? sizeof_ethernet_header w + sizeof arphdr_ether_ipv4 then (0, [])
  else if negb (ntohs (host w) (arp16 w "ar_hrd") =? ARPHRD_ETHER) then (0, [])
  else if negb (ntohs (host w) (arp16 w "ar_pro") =? 0x0800) then (0, [])
  else if negb (arp8 w "ar_hln" =? ETHER_ADDR_LEN) then (0, [])
  else if negb (arp8 w "ar_pln" =? 4) then (0, [])
  else if negb (talloc_zero_ok w) then (0, [CTallocZero false])
  else
    let n := caplen (pcap_header w) in
    let packet :=
      {| dst_port := 1;
         data_len := n;
         data := if talloc_memdup_ok w
                 then Some (take (Z.to_nat n) (pcap_data w)) else None |} in
    let calls := [CTallocZero true; CTallocMemdup n; CDebug] in
    if negb (request_receive w packet)
    then (0, calls ++ [CRequestReceive packet false; CRadFree])
    else (1, calls ++ [CRequestReceive packet true]).

(** The validation the frame has to pass, in the words of the claim: the
    capture holds the Ethernet header and the 28 bytes of the ARP header,
    the hardware format (big endian, at offset 0 of the ARP header) is
    [ARPHRD_ETHER], the protocol format (offset 2) is 0x0800, the hardware
    address length (offset 4) is 6 and the protocol address length
    (offset 5) is 4. *)
Definition be16 (mem : list Byte.byte) (off : Z) : Z :=
  byte_at mem off * 256 + byte_at mem (off + 1).

Definition frame_valid (w : recv_env) : Prop :=
  let a := sizeof_ethernet_header w in
  sizeof_ethernet_header w + 28 <= caplen (pcap_header w)
  /\ be16 (pcap_data w) a = 1
  /\ be16 (pcap_data w) (a + 2) = 0x0800
  /\ byte_at (pcap_data w) (a + 4) = 6
  /\ byte_at (pcap_data w) (a + 5) = 4.

(** The ways a frame fails the validation, one by one. *)
Definition frame_invalid (w : recv_env) : Prop :=
  let a := sizeof_ethernet_header w in
  caplen (pcap_header w) < sizeof_ethernet_header w + 28
  \/ be16 (pcap_data w) a <> ARPHRD_ETHER
  \/ be16 (pcap_data w) (a + 2) <> 0x0800
  \/ byte_at (pcap_data w) (a + 4) <> 6
  \/ byte_at (pcap_data w) (a + 5) <> 4.

Definition allocates (c : recv_call) : bool :=
  match c with CTallocZero _ | CTallocMemdup _ => true | _ => false end.

Definition hands_over (c : recv_call) : bool :=
  match c with CRequestReceive _ _ => true | _ => false end.

(** ** [header_names] and [arp_socket_decode] (proto_arp.c, lines 169-228) *)

(** [arp_decode_t]; [name] is [None] for the NULL of the last entry. *)
Record arp_decode_t := { name : option string; len : Z }.

Definition header_names : list arp_decode_t :=
  [ {| name := Some "ARP-Hardware-Format"%string;          len := 2 |};
    {| name := Some "ARP-Protocol-Format"%string;          len := 2 |};
    {| name := Some "ARP-Hardware-Address-Length"%string;  len := 1 |};
    {| name := Some "ARP-Protocol-Address-Length"%string;  len := 1 |};
    {| name := Some "ARP-Operation"%string;                len := 2 |};
    {| name := Some "ARP-Sender-Hardware-Address"%string;  len := 6 |};
    {| name := Some "ARP-Sender-Protocol-Address"%string;  len := 4 |};
    {| name := Some "ARP-Target-Hardware-Address"%string;  len := 6 |};
    {| name := Some "ARP-Target-Protocol-Address"%string;  len := 4 |};
    {| name := None; len := 0 |} ].

(** The dictionary and the attribute decoder of libradius, which the
    function calls: [dict_attrbyname(name)] is [None] for NULL;
    [data2vp(packet, NULL, NULL, da, p, len, len, &vp)] is given the memory
    from [p] on and returns its [ssize_t] and the pair it stored in [vp]. *)
Class decoder := {
  DICT_ATTR : Type;
  VALUE_PAIR : Type;
  dict_attrbyname : string -> option DICT_ATTR;
  data2vp : DICT_ATTR -> list Byte.byte -> Z -> Z -> Z * VALUE_PAIR
}.

(** One pass of the loop body, as the calls it makes on the packet. *)
Inductive decode_call `{decoder} :=
| DDictAttr (n : string)                 (* dict_attrbyname(header_names[i].name) *)
| DData2vp (n : string) (p : Z) (l : Z)  (* data2vp(..., p, l, l, &vp), p from packet->data *)
| DRDebug (n : string)                   (* RDEBUG("Failed decoding %s: %s") *)
| DPairAdd (vp : VALUE_PAIR).            (* debug_pair(vp); pairadd(&request->packet->vps, vp) *)

(** The [for] loop from entry [names] on, with [p] the offset of the cursor
    in [packet->data] and [vps] the pairs of the packet: the return value,
    the pairs of the packet afterwards and the calls made. *)
Fixpoint arp_decode_loop `{decoder} (mem : list Byte.byte)
    (names : list arp_decode_t) (p : Z) (vps : list VALUE_PAIR)
    : Z * list VALUE_PAIR * list decode_call :=
  match names with
  | [] => (0, vps, [])
  | h :: rest =>
      match name h with
      | None => (0, vps, [])
      | Some n =>
          match dict_attrbyname n with
          | None => (0, vps, [DDictAttr n])
          | Some da =>
              let '(l, vp) := data2vp da (drop (Z.to_nat p) mem) (len h) (len h) in
              if l <=? 0
              then (0, vps, [DDictAttr n; DData2vp n p (len h); DRDebug n])
              else
                let '(r, vps', calls) :=
                  arp_decode_loop mem rest (p + len h) (vps ++ [vp]) in
                (r, vps', [DDictAttr n; DData2vp n p (len h); DPairAdd vp] ++ calls)
          end
      end
  end.

(** [arp_socket_decode] on a packet with data [mem] and pairs [vps];
    [ether_len] is [sizeof(struct ethernet_header)]. *)
Definition arp_socket_decode `{decoder} (ether_len : Z)
    (mem : list Byte.byte) (vps : list VALUE_PAIR)
    : Z * list VALUE_PAIR * list decode_call :=
  arp_decode_loop mem header_names ether_len vps.

(** The claim's reading of the walk: nine fields, each with its name, its
    offset in the ARP header and its length. *)
Definition arp_fields : list (string * Z * Z) :=
  [ ("ARP-Hardware-Format"%string,          0,  2);
    ("ARP-Protocol-Format"%string,          2,  2);
    ("ARP-Hardware-Address-Length"%string,  4,  1);
    ("ARP-Protocol-Address-Length"%string,  5,  1);
    ("ARP-Operation"%string,                6,  2);
    ("ARP-Sender-Hardware-Address"%string,  8,  6);
    ("ARP-Sender-Protocol-Address"%string,  14, 4);
    ("ARP-Target-Hardware-Address"%string,  18, 6);
    ("ARP-Target-Protocol-Address"%string,  24, 4) ].

(** A field decodes when its attribute is in the dictionary and [data2vp]
    returns a positive length; the result is the pair. *)
Definition field_decodes `{decoder} (ether_len : Z) (mem : list Byte.byte)
    (f : string * Z * Z) : option VALUE_PAIR :=
  let '(n, off, l) := f in
  match dict_attrbyname n with
  | None => None
  | Some da =>
      let '(r, vp) := data2vp da (drop (Z.to_nat (ether_len + off)) mem) l l in
      if 0 <? r then Some vp else None
  end.

(** The pairs of the fields up to the first one that does not decode. *)
Fixpoint decoded_prefix `{decoder} (ether_len : Z) (mem : list Byte.byte)
    (fs : list (string * Z * Z)) : list VALUE_PAIR :=
  match fs with
  | [] => []
  | f :: rest =>
      match field_decodes ether_len mem f with
      | Some vp => vp :: decoded_prefix ether_len mem rest
      | None => []
      end
  end.

(** The [data2vp] calls of a run, as (name, offset in the ARP header,
    length). *)
Definition walked `{decoder} (ether_len : Z) (calls : list decode_call)
    : list (string * Z * Z) :=
  omap (fun c => match c with
                 | DData2vp n p l => Some (n, p - ether_len, l)
                 | _ => None
                 end) calls.

Definition pair_adds `{decoder} (calls : list decode_call) : list VALUE_PAIR :=
  omap (fun c => match c with DPairAdd vp => Some vp | _ => None end) calls.

(** Each field starts where the previous one ends. *)
Fixpoint consecutive (start : Z) (fs : list (string * Z * Z)) : Prop :=
  match fs with
  | [] => True
  | (_, off, l) :: rest => off = start /\ consecutive (off + l) rest
  end.

Definition total_len (fs : list (string * Z * Z)) : Z :=
  fold_right (fun f a => snd f + a) 0 fs.

(** The entries of a table up to its NULL entry, each with the offset at
    which the loop reads it when it starts the table at offset [off]. *)
Fixpoint fields_from (names : list arp_decode_t) (off : Z) : list (string * Z * Z) :=
  match names with
  | [] => []
  | h :: rest =>
      match name h with
      | None => []
      | Some n => (n, off, len h) :: fields_from rest (off + len h)
      end
  end.

(** ** [arp_socket_parse] (proto_arp.c, lines 240-301) *)

(** The configuration API, libpcap wrapper and globals the function uses:
    [cf_pair_find] and [cf_pair_value] are [None] for NULL,
    [fr_pcap_init(cs, interface, PCAP_INTERFACE_IN)] is [None] for NULL,
    [check_config] is the global int, [fr_pcap_open] and
    [fr_pcap_apply_filter] return an int, [pcap_fd] is [pcap->fd],
    [talloc_strdup(sock, text)] is [None] for NULL. *)
Class parser := {
  CONF_SECTION : Type;
  CONF_PAIR : Type;
  fr_pcap_t : Type;
  cf_pair_find : CONF_SECTION -> string -> option CONF_PAIR;
  cf_pair_value : CONF_PAIR -> option string;
  fr_pcap_init : CONF_SECTION -> string -> option fr_pcap_t;
  check_config : Z;
  fr_pcap_open : fr_pcap_t -> Z;
  fr_pcap_apply_filter : fr_pcap_t -> string -> Z;
  pcap_fd : fr_pcap_t -> Z;
  talloc_strdup : string -> option string
}.

(** The members of [RADCLIENT] that the function sets after the memset. *)
Record RADCLIENT := {
  ipaddr_af_inet : bool;
  ipaddr_inaddr_none : bool;
  prefix : Z;
  longname : option string;
  shortname : option string;
  secret : option string;
  nas_type : option string
}.

Definition RADCLIENT_zero : RADCLIENT :=
  {| ipaddr_af_inet := false; ipaddr_inaddr_none := false; prefix := 0;
     longname := None; shortname := None; secret := None; nas_type := None |}.

(** [arp_socket_t] (lines 33-38) and the two members of [rad_listen_t] that
    the function writes. *)
Record arp_socket_t `{parser} := {
  interface : option string;
  pcap : option fr_pcap_t;
  counter : Z;
  client : RADCLIENT
}.

Record rad_listen_t `{parser} := {
  sock : arp_socket_t;           (* this->data *)
  fd : Z;
  nodup : bool
}.

(** The calls [arp_socket_parse] makes that act outside the socket. *)
Inductive parse_call :=
| PLogErr (msg : string)          (* cf_log_err_cs(cs, msg, ...) *)
| PPcapInit (iface : string)      (* fr_pcap_init(cs, iface, PCAP_INTERFACE_IN) *)
| PSuidUp                         (* fr_suid_up() *)
| PPcapOpen                       (* fr_pcap_open(sock->pcap) *)
| PSuidDown                       (* fr_suid_down() *)
| PApplyFilter (expr : string).   (* fr_pcap_apply_filter(sock->pcap, expr) *)

Definition set_interface `{parser} (s : arp_socket_t) (v : string) : arp_socket_t :=
  {| interface := Some v; pcap := pcap s; counter := counter s; client := client s |}.

Definition set_pcap `{parser} (s : arp_socket_t) (h : option fr_pcap_t) : arp_socket_t :=
  {| interface := interface s; pcap := h; counter := counter s; client := client s |}.

Definition set_client `{parser} (s : arp_socket_t) (c : RADCLIENT) : arp_socket_t :=
  {| interface := interface s; pcap := pcap s; counter := counter s; client := c |}.

Definition set_sock `{parser} (l : rad_listen_t) (s : arp_socket_t) : rad_listen_t :=
  {| sock := s; fd := fd l; nodup := nodup l |}.

(** The return value, the listener afterwards and the calls made. *)
Definition arp_socket_parse `{parser} (cs : CONF_SECTION) (this : rad_listen_t)
    : Z * rad_listen_t * list parse_call :=
  match cf_pair_find cs "interface" with
  | None => (-1, this, [PLogErr "'interface' is required for arp"])
  | Some cp =>
      match cf_pair_value cp with
      | None => (-1, this, [PLogErr "No interface name given"])
      | Some value =>
          let s1 := set_interface (sock this) value in
          let h := fr_pcap_init cs value in
          let s2 := set_pcap s1 h in
          match h with
          | None =>
              (-1, set_sock this s2,
               [PPcapInit value; PLogErr "Failed creating pcap for interface %s"])
          | Some pc =>
              if negb (check_config =? 0)
              then (0, set_sock this s2, [PPcapInit value])
              else if fr_pcap_open pc <? 0
              then (-1, set_sock this s2,
                    [PPcapInit value; PSuidUp; PPcapOpen;
                     PLogErr "Failed opening interface %s: %s"])
              else if fr_pcap_apply_filter pc "arp" <? 0
              then (-1, set_sock this s2,
                    [PPcapInit value; PSuidUp; PPcapOpen; PSuidDown;
                     PApplyFilter "arp";
                     PLogErr "Failed setting filter for interface %s: %s"])
              else
                let c :=
                  {| ipaddr_af_inet := true; ipaddr_inaddr_none := true;
                     prefix := 0;
                     longname := Some value; shortname := Some value;
                     secret := Some value;
                     nas_type := talloc_strdup "none" |} in
                (0,
                 {| sock := set_client s2 c; fd := pcap_fd pc; nodup := true |},
                 [PPcapInit value; PSuidUp; PPcapOpen; PSuidDown;
                  PApplyFilter "arp"])
          end
      end
  end.

(** A call that sets up packet capture. *)
Definition pcap_setup (c : parse_call) : bool :=
  match c with
  | PPcapInit _ | PPcapOpen | PApplyFilter _ => true
  | _ => false
  end.

(** ** Sample inputs *)

Definition bytes_of (l : list Z) : list Byte.byte :=
  omap (fun z => Byte.of_N (Z.to_N z)) l.

(** An ARP request for 192.168.0.1 from 192.168.0.2, broadcast on
    Ethernet: 14 bytes of Ethernet header and 28 bytes of ARP. *)
Definition arp_request_frame : list Byte.byte :=
  bytes_of [ 255; 255; 255; 255; 255; 255;  0; 17; 34; 51; 68; 85;  8; 6;
             0; 1;  8; 0;  6;  4;  0; 1;
             0; 17; 34; 51; 68; 85;  192; 168; 0; 2;
             0; 0; 0; 0; 0; 0;  192; 168; 0; 1 ].

(** The same frame with the hardware address length set to 8. *)
Definition bad_hln_frame : list Byte.byte :=
  bytes_of [ 255; 255; 255; 255; 255; 255;  0; 17; 34; 51; 68; 85;  8; 6;
             0; 1;  8; 0;  8;  4;  0; 1;
             0; 17; 34; 51; 68; 85;  192; 168; 0; 2;
             0; 0; 0; 0; 0; 0;  192; 168; 0; 1 ].

Definition sample_recv (frame : list Byte.byte) : recv_env :=
  {| host := LittleEndian;
     sizeof_ethernet_header := 14;
     pcap_rcode := 1;
     pcap_header := {| caplen := Z.of_nat (length frame);
                       wire_len := Z.of_nat (length frame) |};
     pcap_data := frame;
     talloc_zero_ok := true;
     talloc_memdup_ok := true;
     request_receive := fun _ => true |}.

(** A dictionary that has every attribute but [missing], and a decoder
    that copies the bytes of the field, the pair being the name of the
    attribute and its bytes. *)
Definition sample_decoder (missing : option string) : decoder :=
  {| DICT_ATTR := string;
     VALUE_PAIR := string * list Byte.byte;
     dict_attrbyname := fun n =>
       match missing with
       | Some m => if String.eqb n m then None else Some n
       | None => Some n
       end;
     data2vp := fun da mem l _ => (l, (da, take (Z.to_nat l) mem)) |}.

(** A configuration section as the list of its pairs; a pcap handle as the
    name of its interface. [chk] is the value of [check_config]. *)
Definition sample_parser (chk : Z) : parser :=
  {| CONF_SECTION := list (string * option string);
     CONF_PAIR := string * option string;
     fr_pcap_t := string;
     cf_pair_find := fun cs n => List.find (fun cp => String.eqb (fst cp) n) cs;
     cf_pair_value := snd;
     fr_pcap_init := fun _ iface => Some iface;
     check_config := chk;
     fr_pcap_open := fun _ => 0;
     fr_pcap_apply_filter := fun _ _ => 0;
     pcap_fd := fun _ => 3;
     talloc_strdup := Some |}.

Definition sample_listener (chk : Z) : @rad_listen_t (sample_parser chk) :=
  {| sock := {| interface := None; pcap := None; counter := 0;
                client := RADCLIENT_zero |};
     fd := -1; nodup := false |}.

(** ** [arp_process] (proto_arp.c, lines 56-94) *)

(** [size_t] arithmetic wraps at the width of the type, [bits]. *)
Definition size_t (bits z : Z) : Z := z mod 2 ^ bits.

(** The one call [arp_process] makes. *)
Inductive process_call :=
| CProcessPostAuth (n : Z).       (* process_post_auth(n, request) *)

(** [arp_process] on the packet of the request: [p] is [packet->data] plus
    the size of the Ethernet header, [ether_len], and the test
    [p > packet->data + packet->data_len] compares the two offsets. The
    result is the return value, the local [size] where the function gets
    to compute it ([data_len] minus [p - packet->data], in [size_t]) and
    the calls made. *)
Definition arp_process (ether_len bits : Z) (packet : RADIUS_PACKET)
    : Z * option Z * list process_call :=
  if ether_len >? data_len packet then (0, None, [])
  else (1, Some (size_t bits (data_len packet - ether_len)),
        [CProcessPostAuth 0]).

(** ** [arp_socket_print] (proto_arp.c, lines 303-310) *)

(** What [snprintf(buffer, bufsize, ...)] stores in the buffer when the
    formatted text is [out]: nothing for a size of 0, else the first
    [bufsize - 1] characters and the terminating NUL. *)
Definition snprintf (bufsize : Z) (out : string) : list Ascii.ascii :=
  if bufsize <=? 0 then []
  else take (Z.to_nat (bufsize - 1)) (list_ascii_of_string out) ++ [Ascii.zero].

(** The return value and the bytes stored in [buffer]. The [%s] of a NULL
    [sock->interface] is undefined in C: the model has no result there. *)
Definition arp_socket_print `{parser} (this : rad_listen_t) (bufsize : Z)
    : option (Z * list Ascii.ascii) :=
  match interface (sock this) with
  | None => None
  | Some v => Some (1, snprintf bufsize (String.append "arp interface " v))
  end.

(** ** Environments that differ in one member *)

Definition with_host (w : recv_env) (h : endian) : recv_env :=
  {| host := h;
     sizeof_ethernet_header := sizeof_ethernet_header w;
     pcap_rcode := pcap_rcode w;
     pcap_header := pcap_header w;
     pcap_data := pcap_data w;
     talloc_zero_ok := talloc_zero_ok w;
     talloc_memdup_ok := talloc_memdup_ok w;
     request_receive := request_receive w |}.

Definition with_data (w : recv_env) (d : list Byte.byte) : recv_env :=
  {| host := host w;
     sizeof_ethernet_header := sizeof_ethernet_header w;
     pcap_rcode := pcap_rcode w;
     pcap_header := pcap_header w;
     pcap_data := d;
     talloc_zero_ok := talloc_zero_ok w;
     talloc_memdup_ok := talloc_memdup_ok w;
     request_receive := request_receive w |}.

(** The packet as [arp_socket_recv] fills it before it hands it over. *)
Definition received_packet (w : recv_env) : RADIUS_PACKET :=
  {| dst_port := 1;
     data_len := caplen (pcap_header w);
     data := if talloc_memdup_ok w
             then Some (take (Z.to_nat (caplen (pcap_header w))) (pcap_data w))
             else None |}.

(** The [request_receive] calls of a run, and the number of calls that a
    predicate holds of. *)
Definition handed (calls : list recv_call) : list RADIUS_PACKET :=
  omap (fun c => match c with CRequestReceive p _ => Some p | _ => None end) calls.

Definition count_calls {A : Type} (f : A -> bool) (calls : list A) : nat :=
  length (filter (fun c => f c = true) calls).

Definition is_talloc_zero (c : recv_call) : bool :=
  match c with CTallocZero _ => true | _ => false end.

Definition is_rad_free (c : recv_call) : bool :=
  match c with CRadFree => true | _ => false end.

Definition is_suid_up (c : parse_call) : bool :=
  match c with PSuidUp => true | _ => false end.

Definition is_suid_down (c : parse_call) : bool :=
  match c with PSuidDown => true | _ => false end.

(** A listener whose pcap handle has descriptor [n]. *)
Definition sample_parser_full (open_rc filter_rc : Z) : parser :=
  {| CONF_SECTION := list (string * option string);
     CONF_PAIR := string * option string;
     fr_pcap_t := string;
     cf_pair_find := fun cs n => List.find (fun cp => String.eqb (fst cp) n) cs;
     cf_pair_value := snd;
     fr_pcap_init := fun _ iface => Some iface;
     check_config := 0;
     fr_pcap_open := fun _ => open_rc;
     fr_pcap_apply_filter := fun _ _ => filter_rc;
     pcap_fd := fun _ => 3;
     talloc_strdup := Some |}.

(** The same with everything succeeding but [talloc_strdup]. *)
Definition sample_parser_nomem : parser :=
  {| CONF_SECTION := list (string * option string);
     CONF_PAIR := string * option string;
     fr_pcap_t := string;
     cf_pair_find := fun cs n => List.find (fun cp => String.eqb (fst cp) n) cs;
     cf_pair_value := snd;
     fr_pcap_init := fun _ iface => Some iface;
     check_config := 0;
     fr_pcap_open := fun _ => 0;
     fr_pcap_apply_filter := fun _ _ => 0;
     pcap_fd := fun _ => 3;
     talloc_strdup := fun _ => None |}.

Definition sample_listener_nomem : @rad_listen_t sample_parser_nomem :=
  {| sock := {| interface := None; pcap := None; counter := 0;
                client := RADCLIENT_zero |};
     fd := -1; nodup := false |}.

Definition sample_listener_full (open_rc filter_rc : Z)
    : @rad_listen_t (sample_parser_full open_rc filter_rc) :=
  {| sock := {| interface := None; pcap := None; counter := 0;
                client := RADCLIENT_zero |};
     fd := -1; nodup := false |}.

End ProtoArp.

(* ===================================================================== *)
(** * Part II: theorems                                                    *)
(* ===================================================================== *)

Module RadsniffSpec.

Import Radsniff.
Local Open Scope Z_scope.

(** ** Machine numbers *)

Lemma uint64_small z : 0 <= z < 2 ^ 64 -> uint64 z = z.
Proof. intros Hz. unfold uint64. apply Z.mod_small. exact Hz. Qed.


Lemma uint64_succ z : uint64 (uint64 z + 1) = uint64 (z + 1).
Proof. unfold uint64. rewrite Zplus_mod_idemp_l. reflexivity. Qed.

(** ** Entries of the statistics *)

Lemma same_bucket_true d d' c c' :
  same_bucket d d' c c' = true <-> d = d' /\ c = c'.
Proof.
  destruct d, d'; simpl; rewrite ?Nat.eqb_eq; split;
    intros; try discriminate; intuition congruence.
Qed.

Lemma bucket_update_same d c f s :
  bucket d c (update_bucket d c f s) = f <$> bucket d c s.
Proof. destruct d; simpl; apply list_lookup_alter_eq. Qed.

Lemma bucket_update_other d c d' c' f s :
  same_bucket d d' c c' = false ->
  bucket d c (update_bucket d' c' f s) = bucket d c s.
Proof.
  intros Hne. destruct d, d'; simpl in *; try reflexivity;
    apply list_lookup_alter_ne; apply Nat.eqb_neq in Hne; congruence.
Qed.

Lemma bucket_on_tick d c s :
  bucket d c (snd (on_tick s)) = reset_interval <$> bucket d c s.
Proof. destruct d; simpl; apply list_lookup_fmap. Qed.

Lemma bucket_stats_zero `{codec} d c :
  (c < PW_CODE_MAX)%nat -> bucket d c stats_zero = Some latency_zero.
Proof. intros Hc. destruct d; simpl; apply lookup_replicate_2; exact Hc. Qed.

(** ** The retransmission histogram *)

Lemma rt_zero_length : length rt_zero = Z.to_nat (RS_RETRANSMIT_MAX + 1).
Proof. reflexivity. Qed.

(** No outcome and no tick changes the number of elements of [rt]. *)
Lemma apply_outcome_rt_length o b :
  length (rt (interval (apply_outcome o b))) = length (rt (interval b)).
Proof. destruct o; simpl; try reflexivity. apply length_alter. Qed.

(** Every [rt] of the statistics keeps its [RS_RETRANSMIT_MAX + 1]
    elements through the events of the aggregator. *)
Lemma agg_step_rt_length (s : rs_stats_t) (e : agg_event) :
  (forall d c b, bucket d c s = Some b ->
     length (rt (interval b)) = Z.to_nat (RS_RETRANSMIT_MAX + 1)) ->
  forall d c b, bucket d c (agg_step s e) = Some b ->
    length (rt (interval b)) = Z.to_nat (RS_RETRANSMIT_MAX + 1).
Proof.
  intros Hinv d c b. destruct e as [c' d' o |]; cbn [agg_step].
  - unfold on_classification. destruct (same_bucket d d' c c') eqn:Hs.
    + apply same_bucket_true in Hs as [<- <-].
      rewrite bucket_update_same.
      destruct (bucket d c s) as [b0 |] eqn:Hb0; simpl; [| discriminate].
      intros [= <-]. rewrite apply_outcome_rt_length. eauto.
    + rewrite bucket_update_other by exact Hs. eauto.
  - rewrite bucket_on_tick.
    destruct (bucket d c s) as [b0 |]; simpl; [| discriminate].
    intros [= <-]. reflexivity.
Qed.

Lemma aggregate_rt_length (es : list agg_event) : forall s : rs_stats_t,
  (forall d c b, bucket d c s = Some b ->
     length (rt (interval b)) = Z.to_nat (RS_RETRANSMIT_MAX + 1)) ->
  forall d c b, bucket d c (aggregate es s) = Some b ->
    length (rt (interval b)) = Z.to_nat (RS_RETRANSMIT_MAX + 1).
Proof.
  induction es as [| e es IH]; intros s Hinv; [exact Hinv |].
  change (aggregate (e :: es) s) with (aggregate es (agg_step s e)).
  apply IH. apply agg_step_rt_length. exact Hinv.
Qed.

Lemma stats_zero_rt_length `{codec} d c b :
  bucket d c stats_zero = Some b ->
  length (rt (interval b)) = Z.to_nat (RS_RETRANSMIT_MAX + 1).
Proof.
  destruct d; simpl; intros Hb; apply lookup_replicate_1 in Hb as [-> _];
    reflexivity.
Qed.

(** C3. A retransmit count [r >= 0] is recorded in bucket
    min(r, RS_RETRANSMIT_MAX), which lies inside the
    [RS_RETRANSMIT_MAX + 1] elements of [rt]: the write increments that
    element, leaves the others and the length of the array as they are,
    whatever the size of [r]. *)
Theorem rt_bucket_in_bounds (r : Z) (b : rs_latency_t) :
  0 <= r ->
  length (rt (interval b)) = Z.to_nat (RS_RETRANSMIT_MAX + 1) ->
  Z.of_nat (rt_bucket r) = Z.min r RS_RETRANSMIT_MAX
  /\ (rt_bucket r < length (rt (interval b)))%nat
  /\ (exists x,
        rt (interval b) !! rt_bucket r = Some x
        /\ rt (interval (apply_outcome (ORetransmit r) b)) !! rt_bucket r
             = Some (uint64 (x + 1)))
  /\ (forall i, i <> rt_bucket r ->
        rt (interval (apply_outcome (ORetransmit r) b)) !! i
          = rt (interval b) !! i)
  /\ length (rt (interval (apply_outcome (ORetransmit r) b)))
       = length (rt (interval b)).
Proof.
  intros Hr Hlen.
  assert (Z.of_nat (rt_bucket r) = Z.min r RS_RETRANSMIT_MAX) as Hb.
  { unfold rt_bucket, RS_RETRANSMIT_MAX. lia. }
  assert (rt_bucket r < length (rt (interval b)))%nat as Hlt.
  { rewrite Hlen. unfold RS_RETRANSMIT_MAX in *. lia. }
  split; [exact Hb |]. split; [exact Hlt |]. split; [| split].
  - destruct (lookup_lt_is_Some_2 _ _ Hlt) as [x Hx].
    exists x. split; [exact Hx |]. simpl.
    rewrite list_lookup_alter_eq, Hx. reflexivity.
  - intros i Hi. simpl. apply list_lookup_alter_ne. congruence.
  - apply apply_outcome_rt_length.
Qed.

Lemma rt_bucket_in_bounds_witness :
  Z.of_nat (rt_bucket 1000) = Z.min 1000 RS_RETRANSMIT_MAX
  /\ (rt_bucket 1000 < length (rt (interval latency_zero)))%nat.
Proof.
  destruct (rt_bucket_in_bounds 1000 latency_zero) as (H1 & H2 & _);
    [lia | reflexivity |].
  split; [exact H1 | exact H2].
Defined.

(** ** The cumulative moving average *)

Lemma latencies_of_cons d c e es :
  latencies_of d c (e :: es) = latencies_of d c [e] ++ latencies_of d c es.
Proof.
  unfold latencies_of. simpl.
  destruct e as [c' d' [lat | | | n |] |]; simpl; try reflexivity.
  destruct (same_bucket d d' c c'); reflexivity.
Qed.

(** One event of the aggregator, seen from one entry: a latency recorded
    for the entry is put through [record_latency]; anything else leaves
    the cumulative members of the entry as they are. *)
Lemma agg_step_cma d c s e b :
  bucket d c s = Some b ->
  exists b',
    bucket d c (agg_step s e) = Some b'
    /\ match latencies_of d c [e] with
       | [] => latency_cma b' = latency_cma b
               /\ latency_cma_count b' = latency_cma_count b
       | lat :: _ => b' = record_latency lat b
       end.
Proof.
  intros Hb. destruct e as [c' d' o |]; cbn [agg_step].
  - unfold on_classification.
    destruct (same_bucket d d' c c') eqn:Hs.
    + apply same_bucket_true in Hs as [<- <-].
      rewrite bucket_update_same, Hb. simpl.
      exists (apply_outcome o b). split; [reflexivity |].
      assert (same_bucket d d c c = true) as Hrefl
        by (apply same_bucket_true; split; reflexivity).
      destruct o; simpl; rewrite ?Hrefl; simpl; auto.
    + rewrite bucket_update_other by exact Hs.
      exists b. split; [exact Hb |].
      destruct o; simpl; rewrite ?Hs; simpl; auto.
  - rewrite bucket_on_tick, Hb. simpl.
    exists (reset_interval b). split; [reflexivity |]. split; reflexivity.
Qed.

(** What a run of the aggregator keeps true of one entry: its sample count
    grows by the number of latencies recorded for it, and its average times
    its count is the sum of what it held and of the latencies. *)
Lemma latencies_of_single d c e lat rest :
  latencies_of d c [e] = lat :: rest -> rest = [].
Proof.
  unfold latencies_of. simpl.
  destruct e as [c' d' [l | | | n |] |]; simpl; try discriminate.
  destruct (same_bucket d d' c c'); simpl; congruence.
Qed.

Lemma aggregate_cma d c es : forall s b,
  bucket d c s = Some b ->
  0 <= latency_cma_count b ->
  latency_cma_count b + Z.of_nat (length (latencies_of d c es)) < 2 ^ 64 ->
  exists b',
    bucket d c (aggregate es s) = Some b'
    /\ latency_cma_count b'
         = latency_cma_count b + Z.of_nat (length (latencies_of d c es))
    /\ (latency_cma b' * inject_Z (latency_cma_count b')
        == latency_cma b * inject_Z (latency_cma_count b)
           + Qsum (latencies_of d c es))%Q.
Proof.
  induction es as [| e es IH]; intros s b Hb Hn Hlt.
  - exists b. simpl in *. split; [exact Hb |]. split; [lia |].
    unfold Qsum. simpl. ring.
  - rewrite latencies_of_cons in *.
    destruct (agg_step_cma d c s e b Hb) as (b1 & Hb1 & Hstep).
    change (aggregate (e :: es) s) with (aggregate es (agg_step s e)).
    rewrite length_app in *.
    remember (latencies_of d c es) as ls eqn:Hls.
    destruct (latencies_of d c [e]) as [| lat rest] eqn:He.
    + destruct Hstep as [Hcma Hcnt]. cbn [length app] in *.
      destruct (IH _ b1 Hb1) as (b' & Hb' & Hcnt' & Hinv); [lia | lia |].
      exists b'. split; [exact Hb' |]. split; [lia |].
      rewrite Hinv, Hcma, Hcnt. reflexivity.
    + apply latencies_of_single in He. subst rest b1.
      cbn [length app] in *.
      assert (latency_cma_count (record_latency lat b) = latency_cma_count b + 1)
        as Hc1 by (simpl; apply uint64_small; lia).
      destruct (IH _ (record_latency lat b) Hb1) as (b' & Hb' & Hcnt' & Hinv);
        [lia | lia |].
      exists b'. split; [exact Hb' |]. split; [lia |].
      rewrite Hinv, Hc1. cbn [record_latency latency_cma].
      rewrite uint64_small by lia.
      rewrite inject_Z_plus.
      assert (~ (inject_Z (latency_cma_count b) + inject_Z 1 == 0)%Q) as Hnz.
      { rewrite <- inject_Z_plus. change 0%Q with (inject_Z 0).
        rewrite inject_Z_injective. lia. }
      change (Qsum (lat :: ls)) with (lat + Qsum ls)%Q.
      field. exact Hnz.
Qed.

Section Average.
Context `{codec}.

(** In exact arithmetic, whatever events the aggregator is given, ticks
    included, the update rule keeps the average of an entry at the
    arithmetic mean of the latencies recorded for it, and its count at
    their number (below 2^64 samples). This says nothing of the rounding of
    the [double] that radsniff.h declares. *)
Lemma cma_exact_mean (d : direction) (c : nat) (es : list agg_event) :
  (c < PW_CODE_MAX)%nat ->
  (0 < length (latencies_of d c es))%nat ->
  Z.of_nat (length (latencies_of d c es)) < 2 ^ 64 ->
  exists b,
    bucket d c (aggregate es stats_zero) = Some b
    /\ latency_cma_count b = Z.of_nat (length (latencies_of d c es))
    /\ (latency_cma b == mean (latencies_of d c es))%Q.
Proof.
  intros Hc Hpos Hlt.
  destruct (aggregate_cma d c es stats_zero latency_zero) as (b & Hb & Hcnt & Hinv).
  - apply bucket_stats_zero. exact Hc.
  - simpl. lia.
  - simpl. lia.
  - simpl in Hcnt, Hinv. exists b. split; [exact Hb |]. split; [exact Hcnt |].
    unfold mean. rewrite Hcnt in Hinv.
    assert (~ (inject_Z (Z.of_nat (length (latencies_of d c es))) == 0)%Q) as Hnz.
    { change 0%Q with (inject_Z 0). rewrite inject_Z_injective. lia. }
    rewrite <- (Qdiv_mult_l (latency_cma b) _ Hnz).
    rewrite Hinv. field. exact Hnz.
Qed.

End Average.

(** ** The loop *)

Section Loop.
Context `{codec}.
Variable conf : rs.

Lemma insert_request_Some (k : key) (r : rs_request_t) (t t' : RequestTable) :
  insert_request k r t = Some t' <-> t !! k = None /\ t' = <[k := r]> t.
Proof.
  unfold insert_request. destruct (t !! k); split;
    try (intros [? ?]); try discriminate; intros; try split; congruence.
Qed.


Lemma run_cons (e : loop_event) (es : list loop_event) (s : core) :
  run conf (e :: es) s = run conf es (step conf s e).
Proof. reflexivity. Qed.

(** Every step hands the aggregator at most one outcome. *)
Lemma teardown_stats (k : key) (r : rs_request_t) (s : core) :
  exists es, (length es <= 1)%nat
             /\ stats (teardown k r s) = aggregate es (stats s).
Proof.
  unfold teardown. simpl. destruct (pending r && negb (forced_cleanup r)).
  - exists [AClassified (snd (stats_req r)) (fst (stats_req r)) OLost].
    split; [simpl; lia | reflexivity].
  - exists []. split; [simpl; lia | reflexivity].
Qed.

Lemma step_stats (s : core) (e : loop_event) :
  exists es, (length es <= 1)%nat
             /\ stats (step conf s e) = aggregate es (stats s).
Proof.
  assert (exists es, (length es <= 1)%nat /\ stats s = aggregate es (stats s))
    as Hsame by (exists []; split; [simpl; lia | reflexivity]).
  destruct e as [now p | now k | k |]; cbn [step].
  - unfold on_packet. destruct (find _ (table s)) as [r |].
    + destruct (request_typed (code p)).
      * destruct (decide _).
        -- exists [AClassified (snd (stats_req r)) (fst (stats_req r))
                     (ORetransmit (Z.min (uint64 (rt_req r + 1))
                                     RS_RETRANSMIT_MAX))].
           split; [simpl; lia | reflexivity].
        -- destruct (insert_request _ _ _); [| exact Hsame].
           exists [AClassified (code p) Exchange OReused].
           split; [simpl; lia | reflexivity].
      * destruct (pending r).
        -- exists [AClassified (snd (stats_req r)) (fst (stats_req r))
                     (OLinked (timestamp p - timestamp (packet r)))].
           split; [simpl; lia | reflexivity].
        -- exists [AClassified (code p) Exchange OUnlinked].
           split; [simpl; lia | reflexivity].
    + destruct (request_typed (code p)).
      * destruct (insert_request _ _ _); exact Hsame.
      * exists [AClassified (code p) Exchange OUnlinked].
        split; [simpl; lia | reflexivity].
  - unfold on_expiry. destruct (find k (table s)) as [r |]; [| exact Hsame].
    destruct (event r) as [dl |]; [| exact Hsame].
    destruct (Qle_bool dl now); [apply teardown_stats | exact Hsame].
  - unfold evict. destruct (find k (table s)) as [r |]; [| exact Hsame].
    apply teardown_stats.
  - exists [ATick]. split; [simpl; lia | reflexivity].
Qed.

(** In a run of the loop every [rt] has its [RS_RETRANSMIT_MAX + 1]
    elements. *)
Lemma run_rt_length (es : list loop_event) : forall s : core,
  (forall d c b, bucket d c (stats s) = Some b ->
     length (rt (interval b)) = Z.to_nat (RS_RETRANSMIT_MAX + 1)) ->
  forall d c b, bucket d c (stats (run conf es s)) = Some b ->
    length (rt (interval b)) = Z.to_nat (RS_RETRANSMIT_MAX + 1).
Proof.
  induction es as [| e es IH]; intros s Hinv; [exact Hinv |].
  rewrite run_cons. apply IH.
  destruct (step_stats s e) as (aes & _ & ->).
  apply aggregate_rt_length. exact Hinv.
Qed.


(** *** Forced cleanup *)

(** The flag is never set on an entry of the table: a step keeps this
    true, since only [evict] sets the flag, on the entry it removes. *)
Lemma step_not_forced (s : core) (e : loop_event) :
  (forall k r, table s !! k = Some r -> forced_cleanup r = false) ->
  forall k r, table (step conf s e) !! k = Some r -> forced_cleanup r = false.
Proof.
  intros Hinv k r.
  destruct e as [now p | now k0 | k0 |]; cbn [step].
  - unfold on_packet, find, remove.
    destruct (table s !! correlation_key p) as [r0 |] eqn:H0.
    + destruct (request_typed (code p)).
      * destruct (decide _); cbn [fst table].
        -- rewrite lookup_insert_Some. intros [[_ <-] | [_ Hl]]; [| eauto].
           simpl. eauto.
        -- cbn [snd]. destruct (insert_request _ _ _) as [t |] eqn:Hi;
             cbn [fst table]; [| eauto].
           apply insert_request_Some in Hi as [_ ->].
           rewrite lookup_insert_Some. intros [[_ <-] | [_ Hl]]; [reflexivity |].
           apply lookup_delete_Some in Hl as [_ Hl]. eauto.
      * destruct (pending r0); cbn [fst table snd].
        -- destruct (dequeue_for conf (code p)).
           ++ rewrite lookup_delete_Some. intros [_ Hl]. eauto.
           ++ rewrite lookup_insert_Some. intros [[_ <-] | [_ Hl]]; [| eauto].
              simpl. eauto.
        -- rewrite lookup_insert_Some. intros [[_ <-] | [_ Hl]]; [| eauto].
           simpl. eauto.
    + destruct (request_typed (code p)); cbn [fst table]; [| eauto].
      destruct (insert_request _ _ _) as [t |] eqn:Hi; cbn [fst table]; [| eauto].
      apply insert_request_Some in Hi as [_ ->].
      rewrite lookup_insert_Some. intros [[_ <-] | [_ Hl]]; [reflexivity | eauto].
  - unfold on_expiry, find. destruct (table s !! k0) as [r0 |]; [| eauto].
    destruct (event r0) as [dl |]; [| eauto].
    destruct (Qle_bool dl now); [| eauto].
    unfold teardown, remove. cbn [table snd].
    rewrite lookup_delete_Some. intros [_ Hl]. eauto.
  - unfold evict, find. destruct (table s !! k0) as [r0 |]; [| eauto].
    unfold teardown, remove. cbn [table snd].
    rewrite lookup_delete_Some. intros [_ Hl]. eauto.
  - simpl. eauto.
Qed.

Lemma run_not_forced (es : list loop_event) : forall s : core,
  (forall k r, table s !! k = Some r -> forced_cleanup r = false) ->
  forall k r, table (run conf es s) !! k = Some r -> forced_cleanup r = false.
Proof.
  induction es as [| e es IH]; intros s Hinv; [exact Hinv |].
  change (run conf (e :: es) s) with (run conf es (step conf s e)).
  apply IH. apply step_not_forced. exact Hinv.
Qed.

(** C5. An entry whose [forced_cleanup] is set is removed without a change
    to any counter: eviction, which sets the flag, leaves the whole of the
    statistics as it was, [lost] and [linked] of every entry included, and
    so does the teardown of a flagged entry, also when it is its expiry
    timer that fires. The entry is gone from the table afterwards. In a run
    of the loop no entry of the table carries the flag, so that a flagged
    entry is never linked. *)
Theorem forced_cleanup_not_counted (s : core) (k : key) (r : rs_request_t)
    (now : Q) :
  find k (table s) = Some r ->
  (stats (evict k s) = stats s
   /\ table (evict k s) !! k = None
   /\ forall d c,
        (lost ∘ interval) <$> bucket d c (stats (evict k s))
          = (lost ∘ interval) <$> bucket d c (stats s)
        /\ (linked ∘ interval) <$> bucket d c (stats (evict k s))
             = (linked ∘ interval) <$> bucket d c (stats s))
  /\ (forced_cleanup r = true ->
        stats (teardown k r s) = stats s
        /\ table (teardown k r s) !! k = None
        /\ stats (on_expiry now k s) = stats s
        /\ forall d c,
             (lost ∘ interval) <$> bucket d c (stats (on_expiry now k s))
               = (lost ∘ interval) <$> bucket d c (stats s)
             /\ (linked ∘ interval) <$> bucket d c (stats (on_expiry now k s))
                  = (linked ∘ interval) <$> bucket d c (stats s))
  /\ (forall es k' r',
        table (run conf es core_zero) !! k' = Some r' ->
        forced_cleanup r' = false).
Proof.
  intros Hk.
  assert (stats (evict k s) = stats s) as Hev.
  { unfold evict. rewrite Hk. unfold teardown. simpl.
    rewrite andb_false_r. reflexivity. }
  split; [| split].
  - split; [exact Hev |]. split.
    + unfold evict. rewrite Hk. unfold teardown, remove. simpl.
      apply lookup_delete_eq.
    + intros d c. rewrite Hev. split; reflexivity.
  - intros Hf.
    assert (stats (teardown k r s) = stats s) as Htd.
    { unfold teardown. simpl. rewrite Hf, andb_false_r. reflexivity. }
    assert (stats (on_expiry now k s) = stats s) as Hex.
    { unfold on_expiry. rewrite Hk. destruct (event r) as [dl |]; [| reflexivity].
      destruct (Qle_bool dl now); [exact Htd | reflexivity]. }
    split; [exact Htd |]. split.
    + unfold teardown, remove. simpl. apply lookup_delete_eq.
    + split; [exact Hex |]. intros d c. rewrite Hex. split; reflexivity.
  - intros es. apply run_not_forced. intros k' r' Hl.
    simpl in Hl. rewrite lookup_empty in Hl. discriminate.
Qed.

(** *** Unlinked responses *)




(** *** Retransmitted requests *)



End Loop.

(** ** Expiry *)

(** A timer served before its deadline does nothing. *)
Lemma on_expiry_early (s : core) (k : key) (r : rs_request_t) (d now : Q) :
  find k (table s) = Some r ->
  event r = Some d ->
  (now < d)%Q ->
  on_expiry now k s = s.
Proof.
  intros Hk He Hlt. unfold on_expiry. rewrite Hk, He.
  destruct (Qle_bool d now) eqn:Hle; [| reflexivity].
  apply Qle_bool_iff in Hle. exfalso. exact (Qlt_not_le _ _ Hlt Hle).
Qed.

(** A timer served at or after its deadline removes its entry; a Pending
    entry that is not flagged is counted lost, once: serving the timer
    again changes nothing. *)
Lemma on_expiry_due (s : core) (k : key) (r : rs_request_t) (d now : Q)
    (b : rs_latency_t) :
  find k (table s) = Some r ->
  event r = Some d ->
  (d <= now)%Q ->
  pending r = true ->
  forced_cleanup r = false ->
  bucket (fst (stats_req r)) (snd (stats_req r)) (stats s) = Some b ->
  table (on_expiry now k s) !! k = None
  /\ (exists b',
        bucket (fst (stats_req r)) (snd (stats_req r))
               (stats (on_expiry now k s)) = Some b'
        /\ lost (interval b') = uint64 (lost (interval b) + 1)
        /\ linked (interval b') = linked (interval b))
  /\ forall now', on_expiry now' k (on_expiry now k s) = on_expiry now k s.
Proof.
  intros Hk He Hle Hp Hf Hb.
  apply Qle_bool_iff in Hle.
  assert (on_expiry now k s = teardown k r s) as ->
    by (unfold on_expiry; rewrite Hk, He, Hle; reflexivity).
  assert (table (teardown k r s) !! k = None) as Hgone
    by (unfold teardown, remove; simpl; apply lookup_delete_eq).
  split; [exact Hgone |]. split.
  - exists (apply_outcome OLost b). unfold teardown. cbn [stats].
    rewrite Hp, Hf. cbn [andb negb]. unfold on_classification.
    rewrite bucket_update_same, Hb. repeat split.
  - intros now'. unfold on_expiry at 1. unfold find. rewrite Hgone. reflexivity.
Qed.

(** ** The scenarios of the specification, run *)

(** Request at 0, response at 0.050: one linked pair; interval average,
    high, low and cumulative average are 0.050; the entry is kept, linked,
    its timer cancelled. *)
Example round_trip_scenario :
  (fun b : rs_latency_t => (linked (interval b), latency_average (interval b),
             latency_high (interval b), latency_low (interval b),
             latency_cma b, latency_cma_count b))
    <$> bucket Exchange 1
          (stats (@run sample_codec sample_conf
                    [EvPacket 0%Q sample_request;
                     EvPacket (50 # 1000)%Q sample_response]
                    (@core_zero sample_codec)))
  = Some (1, (50 # 1000)%Q, (50 # 1000)%Q, (50 # 1000)%Q, (50 # 1000)%Q, 1).
Proof. reflexivity. Qed.

(** Identical request at 0, 1 and 2, response at 2.1: one linked pair, one
    count in the bucket of two retransmissions, latency 2.1 from the first
    request. *)
Example retransmission_scenario :
  (fun b : rs_latency_t => (linked (interval b), rt (interval b) !! 2%nat,
             latency_total (interval b)))
    <$> bucket Exchange 1
          (stats (@run sample_codec sample_conf
                    [EvPacket 0%Q sample_request;
                     EvPacket 1%Q sample_request;
                     EvPacket 2%Q sample_request;
                     EvPacket (21 # 10)%Q sample_late_response]
                    (@core_zero sample_codec)))
  = Some (1, Some 1, (21 # 10)%Q).
Proof. reflexivity. Qed.

(** Request at 0, timeout 6, no response: served just after 6 the timer
    counts the request lost and removes it; served at 5 it does nothing. *)
Example loss_scenario :
  ((lost ∘ interval)
     <$> bucket Exchange 1
           (stats (@run sample_codec sample_conf
                     [EvPacket 0%Q sample_request;
                      EvExpiry 5%Q (correlation_key sample_request);
                      EvExpiry (6001 # 1000)%Q (correlation_key sample_request)]
                     (@core_zero sample_codec))),
   table (@run sample_codec sample_conf
            [EvPacket 0%Q sample_request;
             EvExpiry 5%Q (correlation_key sample_request);
             EvExpiry (6001 # 1000)%Q (correlation_key sample_request)]
            (@core_zero sample_codec))
     !! correlation_key sample_request,
   (lost ∘ interval)
     <$> bucket Exchange 1
           (stats (@run sample_codec sample_conf
                     [EvPacket 0%Q sample_request;
                      EvExpiry 5%Q (correlation_key sample_request)]
                     (@core_zero sample_codec))))
  = (Some 1, None, Some 0).
Proof. reflexivity. Qed.

(** A request with other content under a key whose request is still
    Pending: counted reused, and the new request takes the entry. After the
    first request is linked and removed, the same packet starts a fresh
    entry and is not counted reused. *)
Example reused_scenario :
  ((reused ∘ interval)
     <$> bucket Exchange 1
           (stats (@run sample_codec sample_conf_dequeue
                     [EvPacket 0%Q sample_request;
                      EvPacket 3%Q sample_other_request]
                     (@core_zero sample_codec))),
   packet
     <$> table (@run sample_codec sample_conf_dequeue
                  [EvPacket 0%Q sample_request;
                   EvPacket 3%Q sample_other_request]
                  (@core_zero sample_codec))
           !! correlation_key sample_request,
   (reused ∘ interval)
     <$> bucket Exchange 1
           (stats (@run sample_codec sample_conf_dequeue
                     [EvPacket 0%Q sample_request;
                      EvPacket (50 # 1000)%Q sample_response;
                      EvPacket 3%Q sample_other_request]
                     (@core_zero sample_codec))))
  = (Some 1, Some sample_other_request, Some 0).
Proof. reflexivity. Qed.

(** ** The theorems at sample inputs *)


Example cma_exact_mean_sample :
  exists b,
    bucket Exchange 2
      (aggregate [AClassified 2 Exchange (OLinked (50 # 1000));
                  ATick;
                  AClassified 2 Exchange (OLinked (150 # 1000))]
                 (@stats_zero sample_codec)) = Some b
    /\ latency_cma_count b = 2
    /\ (latency_cma b == 100 # 1000)%Q.
Proof.
  destruct (@cma_exact_mean sample_codec Exchange 2%nat
              [AClassified 2 Exchange (OLinked (50 # 1000));
               ATick;
               AClassified 2 Exchange (OLinked (150 # 1000))])
    as (b & Hb & Hcnt & Hcma).
  - cbn. lia.
  - cbn. lia.
  - reflexivity.
  - exists b. split; [exact Hb |]. split; [exact Hcnt |].
    rewrite Hcma. reflexivity.
Defined.


Lemma forced_cleanup_not_counted_witness :
  (stats (evict (correlation_key sample_request)
            (@run sample_codec sample_conf [EvPacket 0%Q sample_request]
               (@core_zero sample_codec)))
     = stats (@run sample_codec sample_conf [EvPacket 0%Q sample_request]
                (@core_zero sample_codec))
   /\ table (evict (correlation_key sample_request)
               (@run sample_codec sample_conf [EvPacket 0%Q sample_request]
                  (@core_zero sample_codec)))
        !! correlation_key sample_request = None)
  /\ stats (on_expiry 7%Q (correlation_key sample_request) sample_flagged_core)
       = stats sample_flagged_core.
Proof.
  split.
  - destruct (@forced_cleanup_not_counted sample_codec sample_conf
                (@run sample_codec sample_conf [EvPacket 0%Q sample_request]
                   (@core_zero sample_codec))
                (correlation_key sample_request)
                (new_request sample_conf 0%Q sample_request 0) 0%Q)
      as ((Hs & Ht & _) & _).
    + reflexivity.
    + split; [exact Hs | exact Ht].
  - destruct (@forced_cleanup_not_counted sample_codec sample_conf
                sample_flagged_core (correlation_key sample_request)
                (set_forced_cleanup (new_request sample_conf 0%Q sample_request 0))
                7%Q)
      as (_ & Hforced & _).
    + reflexivity.
    + destruct Hforced as (_ & _ & Hex & _); [reflexivity | exact Hex].
Defined.


End RadsniffSpec.

Module ProtoArpSpec.

Import ProtoArp.
Local Open Scope Z_scope.

(** ** Layout of the ARP header *)

Lemma sizeof_arphdr_ether_ipv4 : sizeof arphdr_ether_ipv4 = 28.
Proof. reflexivity. Qed.

Lemma offsetof_ar_hrd : offsetof arphdr_ether_ipv4 "ar_hrd" = 0.
Proof. reflexivity. Qed.

Lemma offsetof_ar_pro : offsetof arphdr_ether_ipv4 "ar_pro" = 2.
Proof. reflexivity. Qed.

Lemma offsetof_ar_hln : offsetof arphdr_ether_ipv4 "ar_hln" = 4.
Proof. reflexivity. Qed.

Lemma offsetof_ar_pln : offsetof arphdr_ether_ipv4 "ar_pln" = 5.
Proof. reflexivity. Qed.

Lemma u8_range b : 0 <= u8 b < 256.
Proof.
  unfold u8. pose proof (Byte.to_N_bounded b) as Hb.
  split; [apply N2Z.is_nonneg | lia].
Qed.

Lemma byte_at_range mem i : 0 <= byte_at mem i < 256.
Proof.
  unfold byte_at. destruct (i <? 0); [lia |].
  destruct (mem !! Z.to_nat i) as [b |]; simpl; [apply u8_range | lia].
Qed.

(** Swapping the two bytes of [lo + hi * 256]. *)
Lemma swap16 lo hi :
  0 <= lo < 256 -> 0 <= hi < 256 ->
  Z.lor (Z.shiftl (Z.land (lo + hi * 256) 255) 8)
        (Z.land (Z.shiftr (lo + hi * 256) 8) 255) = lo * 256 + hi.
Proof.
  intros Hlo Hhi.
  change 255 with (Z.ones 8).
  rewrite !Z.land_ones by lia.
  rewrite Z.shiftr_div_pow2, Z.shiftl_mul_pow2 by lia.
  change (2 ^ 8) with 256.
  replace ((lo + hi * 256) mod 256) with lo
    by (rewrite Z.mod_add by lia; symmetry; apply Z.mod_small; lia).
  replace ((lo + hi * 256) / 256) with hi
    by (rewrite Z.div_add by lia; rewrite (Z.div_small lo) by lia; lia).
  rewrite (Z.mod_small hi) by lia.
  assert (Z.land (lo * 256) hi = 0) as Hd.
  { apply Z.bits_inj'. intros n Hn.
    rewrite Z.land_spec, Z.bits_0.
    destruct (Z.lt_ge_cases n 8) as [Hlt | Hge].
    - change 256 with (2 ^ 8). rewrite Z.mul_pow2_bits_low by lia. reflexivity.
    - rewrite (Z.bits_above_log2 hi n); [apply andb_false_r | lia |].
      destruct (Z.eq_dec hi 0) as [-> | Hnz]; [simpl; lia |].
      apply Z.lt_le_trans with 8; [| lia].
      apply Z.log2_lt_pow2; lia. }
  rewrite <- Z.lxor_lor by exact Hd.
  rewrite <- Z.add_nocarry_lxor by exact Hd. reflexivity.
Qed.

(** [ntohs] of a 16-bit load is the big-endian value of the two bytes,
    whatever the byte order of the host. *)
Lemma ntohs_load16 e mem off : ntohs e (load16 e mem off) = be16 mem off.
Proof.
  destruct e; unfold ntohs, load16, be16; [| reflexivity].
  apply swap16; apply byte_at_range.
Qed.

(** ** [arp_socket_recv] *)

(** The four header tests of the code and the length test hold together
    exactly on the frames that are valid. *)
Lemma recv_tests_valid w :
  (caplen (pcap_header w) <? sizeof_ethernet_header w + sizeof arphdr_ether_ipv4) = false ->
  negb (ntohs (host w) (arp16 w "ar_hrd") =? ARPHRD_ETHER) = false ->
  negb (ntohs (host w) (arp16 w "ar_pro") =? 0x0800) = false ->
  negb (arp8 w "ar_hln" =? ETHER_ADDR_LEN) = false ->
  negb (arp8 w "ar_pln" =? 4) = false ->
  frame_valid w.
Proof.
  unfold arp16, arp8, frame_valid. rewrite !ntohs_load16.
  rewrite sizeof_arphdr_ether_ipv4, offsetof_ar_hrd, offsetof_ar_pro,
    offsetof_ar_hln, offsetof_ar_pln, Z.add_0_r.
  unfold ARPHRD_ETHER, ETHER_ADDR_LEN.
  rewrite !negb_false_iff, !Z.eqb_eq, Z.ltb_ge. tauto.
Qed.

(** What a run of [arp_socket_recv] looks like: either it returns 0 and has
    neither allocated nor handed anything over, or the frame is valid. *)
Lemma recv_cases w :
  (fst (arp_socket_recv w) = 0 /\
   Forall (fun c => allocates c = false /\ hands_over c = false)
          (snd (arp_socket_recv w)))
  \/ (frame_valid w /\
      exists p,
        data_len p = caplen (pcap_header w) /\
        ((fst (arp_socket_recv w) = 0 /\ talloc_zero_ok w = false /\
          snd (arp_socket_recv w) = [CTallocZero false])
         \/ (fst (arp_socket_recv w) = 0 /\ request_receive w p = false /\
             snd (arp_socket_recv w) =
               [CTallocZero true; CTallocMemdup (data_len p); CDebug;
                CRequestReceive p false; CRadFree])
         \/ (fst (arp_socket_recv w) = 1 /\ request_receive w p = true /\
             snd (arp_socket_recv w) =
               [CTallocZero true; CTallocMemdup (data_len p); CDebug;
                CRequestReceive p true]))).
Proof.
  unfold arp_socket_recv.
  destruct (pcap_rcode w =? 0); [left; split; [reflexivity | constructor] |].
  destruct (pcap_rcode w <? 0).
  { left; split; [reflexivity |]. repeat constructor. }
  destruct (caplen _ <? _) eqn:H1; [left; split; [reflexivity | constructor] |].
  destruct (negb (ntohs _ (arp16 w "ar_hrd") =? _)) eqn:H2;
    [left; split; [reflexivity | constructor] |].
  destruct (negb (ntohs _ (arp16 w "ar_pro") =? _)) eqn:H3;
    [left; split; [reflexivity | constructor] |].
  destruct (negb (arp8 w "ar_hln" =? _)) eqn:H4;
    [left; split; [reflexivity | constructor] |].
  destruct (negb (arp8 w "ar_pln" =? _)) eqn:H5;
    [left; split; [reflexivity | constructor] |].
  right. split; [apply recv_tests_valid; assumption |].
  match goal with
  | |- context [request_receive w ?q] => exists q
  end.
  split; [reflexivity |].
  destruct (talloc_zero_ok w); simpl; [| left; auto].
  right.
  match goal with
  | |- context [request_receive w ?q] => destruct (request_receive w q)
  end; simpl; [right | left]; auto.
Qed.

(** C8. [arp_socket_recv] creates a request only for a frame that passes
    the validation. On a frame that fails it (capture shorter than the
    Ethernet header plus the 28 bytes of the ARP header, hardware format
    not [ARPHRD_ETHER], protocol format not 0x0800, hardware address
    length not 6 or protocol address length not 4) it returns 0 and
    makes no allocation and no call of [request_receive]. When it returns 1
    the frame is valid and the last call was a [request_receive] of the
    packet that succeeded. It is handed to [request_receive] only on valid
    frames, and the return value is 0 or 1. *)
Theorem arp_socket_recv_validates (w : recv_env) :
  (frame_invalid w ->
     fst (arp_socket_recv w) = 0 /\
     Forall (fun c => allocates c = false /\ hands_over c = false)
            (snd (arp_socket_recv w)))
  /\ (fst (arp_socket_recv w) = 1 ->
        frame_valid w /\
        exists p, last (snd (arp_socket_recv w)) = Some (CRequestReceive p true)
                  /\ request_receive w p = true
                  /\ dst_port p = 1
                  /\ data_len p = caplen (pcap_header w))
  /\ (Exists (fun c => allocates c = true \/ hands_over c = true)
             (snd (arp_socket_recv w)) -> frame_valid w)
  /\ (fst (arp_socket_recv w) = 0 \/ fst (arp_socket_recv w) = 1).
Proof.
  destruct (recv_cases w) as [[H0 Hnone] | [Hv (p & Hlen & Hrun)]].
  - split; [auto |]. split; [rewrite H0; discriminate |]. split; [| auto].
    intros Hex. apply Exists_exists in Hex as (c & Hin & Hc).
    rewrite Forall_forall in Hnone. destruct (Hnone c Hin) as [Ha Hh].
    destruct Hc; congruence.
  - split.
    { intros Hn. exfalso. revert Hv Hn. unfold frame_valid, frame_invalid, ARPHRD_ETHER.
      cbv zeta. lia. }
    split; [| split; [auto |]].
    + intros H1. split; [exact Hv |].
      destruct Hrun as [(H0 & _) | [(H0 & _) | (_ & Hok & Htr)]];
        try (rewrite H0 in H1; discriminate).
      exists p. rewrite Htr. repeat split; try assumption.
      revert Htr. unfold arp_socket_recv.
      repeat match goal with
             | |- context [if ?b then _ else _] => destruct b
             end; simpl; intros Htr; inversion Htr; subst; reflexivity.
    + destruct Hrun as [(H0 & _) | [(H0 & _) | (H1 & _)]]; auto.
Qed.

(** ** [arp_socket_decode] *)

Section Decode.
Context `{decoder}.
Variable ether_len : Z.
Variable mem : list Byte.byte.

(** The loop from any entry of the table on: it returns 0, appends the
    pairs of the fields that decode up to the first that does not, and
    calls [data2vp] on an initial segment of the fields, at their offsets. *)
Lemma arp_decode_loop_spec names off vps :
  exists calls,
    arp_decode_loop mem names (ether_len + off) vps
      = (0, vps ++ decoded_prefix ether_len mem (fields_from names off), calls)
    /\ pair_adds calls = decoded_prefix ether_len mem (fields_from names off)
    /\ walked ether_len calls `prefix_of` fields_from names off
    /\ (length (pair_adds calls) <= length (walked ether_len calls))%nat.
Proof.
  revert off vps. induction names as [| h rest IH]; intros off vps; simpl.
  - exists []. rewrite app_nil_r. repeat split; [apply prefix_nil | simpl; lia].
  - destruct (name h) as [n |]; simpl.
    2:{ exists []. rewrite app_nil_r. repeat split; [apply prefix_nil | simpl; lia]. }
    destruct (dict_attrbyname n) as [da |].
    2:{ exists [DDictAttr n]. rewrite app_nil_r.
        repeat split; [apply prefix_nil | simpl; lia]. }
    destruct (data2vp da (drop (Z.to_nat (ether_len + off)) mem) (len h) (len h))
      as [l vp] eqn:Hd.
    destruct (Z.leb_spec l 0) as [Hle | Hgt].
    + assert ((0 <? l) = false) as -> by lia.
      exists [DDictAttr n; DData2vp n (ether_len + off) (len h); DRDebug n].
      rewrite app_nil_r. simpl.
      replace (ether_len + off - ether_len) with off by lia.
      repeat split; [| simpl; lia].
      exists (fields_from rest (off + len h)). reflexivity.
    + assert ((0 <? l) = true) as -> by lia.
      destruct (IH (off + len h) (vps ++ [vp])) as (calls & Hrun & Hadd & Hwalk & Hlen).
      rewrite Z.add_assoc in Hrun. rewrite Hrun.
      exists ([DDictAttr n; DData2vp n (ether_len + off) (len h); DPairAdd vp] ++ calls).
      rewrite <- app_assoc. simpl.
      replace (ether_len + off - ether_len) with off by lia.
      repeat split.
      * fold (pair_adds calls). rewrite Hadd. reflexivity.
      * fold (walked ether_len calls). apply prefix_cons. exact Hwalk.
      * fold (pair_adds calls). fold (walked ether_len calls). simpl. lia.
Qed.

(** The table, read up to its NULL entry from offset 0, is the nine fields
    of the claim. *)
Lemma fields_from_header_names : fields_from header_names 0 = arp_fields.
Proof. reflexivity. Qed.

(** C9. [arp_socket_decode] always returns 0. It walks the nine fields of
    the ARP header in their fixed order (hardware format, protocol format,
    hardware address length, protocol address length, operation, sender
    hardware and protocol address, target hardware and protocol address),
    each starting where the previous one ends, 28 bytes in all; it adds one
    pair for each field that decodes, up to the first field whose attribute
    is not in the dictionary or whose [data2vp] fails, and none after. *)
Theorem arp_socket_decode_walk (vps : list VALUE_PAIR) :
  (arp_socket_decode ether_len mem vps).1.1 = 0
  /\ (arp_socket_decode ether_len mem vps).1.2
       = vps ++ decoded_prefix ether_len mem arp_fields
  /\ pair_adds (arp_socket_decode ether_len mem vps).2
       = decoded_prefix ether_len mem arp_fields
  /\ walked ether_len (arp_socket_decode ether_len mem vps).2 `prefix_of` arp_fields
  /\ (length (decoded_prefix ether_len mem arp_fields)
        <= length (walked ether_len (arp_socket_decode ether_len mem vps).2))%nat
  /\ length arp_fields = 9%nat
  /\ consecutive 0 arp_fields
  /\ total_len arp_fields = 28.
Proof.
  unfold arp_socket_decode.
  destruct (arp_decode_loop_spec header_names 0 vps) as (calls & Hrun & Hadd & Hwalk & Hlen).
  rewrite Z.add_0_r, fields_from_header_names in Hrun.
  rewrite fields_from_header_names in Hadd, Hwalk.
  rewrite Hrun. cbn [fst snd].
  split; [reflexivity |]. split; [reflexivity |].
  split; [exact Hadd |]. split; [exact Hwalk |].
  split; [rewrite <- Hadd; exact Hlen |].
  repeat split; reflexivity.
Qed.

End Decode.

(** ** [arp_socket_parse] *)

Section Parse.
Context `{parser}.

(** C10. [arp_socket_parse] returns -1, leaves the listener as it was and
    makes no pcap call when the section has no "interface" pair or the pair
    has no value. When [check_config] is set (and the interface is given and
    its pcap handle created) it returns 0 right after [fr_pcap_init]: the
    only call is the creation of the handle, the interface is neither opened
    nor filtered. *)
Theorem arp_socket_parse_guards (cs : CONF_SECTION) (this : rad_listen_t) :
  (cf_pair_find cs "interface" = None
   \/ (exists cp, cf_pair_find cs "interface" = Some cp /\ cf_pair_value cp = None) ->
     (arp_socket_parse cs this).1.1 = -1
     /\ (arp_socket_parse cs this).1.2 = this
     /\ Forall (fun c => pcap_setup c = false) (arp_socket_parse cs this).2)
  /\ (forall cp value pc,
        check_config <> 0 ->
        cf_pair_find cs "interface" = Some cp ->
        cf_pair_value cp = Some value ->
        fr_pcap_init cs value = Some pc ->
        (arp_socket_parse cs this).1.1 = 0
        /\ (arp_socket_parse cs this).2 = [PPcapInit value]
        /\ fd (arp_socket_parse cs this).1.2 = fd this
        /\ nodup (arp_socket_parse cs this).1.2 = nodup this
        /\ interface (sock (arp_socket_parse cs this).1.2) = Some value
        /\ pcap (sock (arp_socket_parse cs this).1.2) = Some pc
        /\ client (sock (arp_socket_parse cs this).1.2) = client (sock this)).
Proof.
  split.
  - intros [Hnone | (cp & Hcp & Hval)]; unfold arp_socket_parse.
    + rewrite Hnone. cbn. repeat split. repeat constructor.
    + rewrite Hcp, Hval. cbn. repeat split. repeat constructor.
  - intros cp value pc Hchk Hcp Hval Hpc. unfold arp_socket_parse.
    rewrite Hcp, Hval, Hpc.
    destruct (Z.eqb_spec check_config 0) as [Heq | _]; [contradiction |].
    cbn. repeat split.
Qed.

End Parse.

(** ** The theorems at sample inputs *)

Lemma arp_socket_recv_validates_witness :
  (fst (arp_socket_recv (sample_recv bad_hln_frame)) = 0 /\
   Forall (fun c => allocates c = false /\ hands_over c = false)
          (snd (arp_socket_recv (sample_recv bad_hln_frame))))
  /\ frame_valid (sample_recv arp_request_frame).
Proof.
  split.
  - apply (proj1 (arp_socket_recv_validates (sample_recv bad_hln_frame))).
    unfold frame_invalid. do 3 right. left. vm_compute. discriminate.
  - apply (proj1 (proj2 (arp_socket_recv_validates (sample_recv arp_request_frame)))).
    vm_compute. reflexivity.
Defined.

(** With the whole dictionary the request frame yields nine pairs, the
    operation decoded from the two bytes at offset 6; without the sender
    protocol address it yields the six before it. *)
Example arp_socket_decode_all :
  let r := @arp_socket_decode (sample_decoder None) 14 arp_request_frame [] in
  (r.1.1, map fst r.1.2, r.1.2 !! 4%nat)
  = (0,
     ["ARP-Hardware-Format"; "ARP-Protocol-Format";
      "ARP-Hardware-Address-Length"; "ARP-Protocol-Address-Length";
      "ARP-Operation"; "ARP-Sender-Hardware-Address";
      "ARP-Sender-Protocol-Address"; "ARP-Target-Hardware-Address";
      "ARP-Target-Protocol-Address"]%string,
     Some ("ARP-Operation"%string, [Byte.x00; Byte.x01])).
Proof. reflexivity. Qed.

Example arp_socket_decode_stops :
  let r := @arp_socket_decode
             (sample_decoder (Some "ARP-Sender-Protocol-Address"%string))
             14 arp_request_frame [] in
  (r.1.1, map fst r.1.2)
  = (0,
     ["ARP-Hardware-Format"; "ARP-Protocol-Format";
      "ARP-Hardware-Address-Length"; "ARP-Protocol-Address-Length";
      "ARP-Operation"; "ARP-Sender-Hardware-Address"]%string).
Proof. reflexivity. Qed.

Lemma arp_socket_parse_guards_witness :
  ((@arp_socket_parse (sample_parser 0) [] (sample_listener 0)).1.1 = -1
   /\ (@arp_socket_parse (sample_parser 0) [] (sample_listener 0)).1.2
        = sample_listener 0
   /\ Forall (fun c => pcap_setup c = false)
        (@arp_socket_parse (sample_parser 0) [] (sample_listener 0)).2)
  /\ (@arp_socket_parse (sample_parser 1)
        [("interface"%string, Some "eth0"%string)] (sample_listener 1)).2
       = [PPcapInit "eth0"].
Proof.
  split.
  - apply (proj1 (@arp_socket_parse_guards (sample_parser 0) [] (sample_listener 0))).
    left. reflexivity.
  - apply (proj2 (@arp_socket_parse_guards (sample_parser 1)
                    [("interface"%string, Some "eth0"%string)] (sample_listener 1))
                 ("interface"%string, Some "eth0"%string) "eth0"%string "eth0"%string);
      [cbn; lia | reflexivity | reflexivity | reflexivity].
Defined.

(** ** Further properties of [arp_socket_recv] and [arp_process] *)

(** On a valid frame none of the five tests of the code fires. *)
Lemma recv_tests_of_valid w :
  frame_valid w ->
  (caplen (pcap_header w) <? sizeof_ethernet_header w + sizeof arphdr_ether_ipv4) = false
  /\ negb (ntohs (host w) (arp16 w "ar_hrd") =? ARPHRD_ETHER) = false
  /\ negb (ntohs (host w) (arp16 w "ar_pro") =? 0x0800) = false
  /\ negb (arp8 w "ar_hln" =? ETHER_ADDR_LEN) = false
  /\ negb (arp8 w "ar_pln" =? 4) = false.
Proof.
  unfold arp16, arp8, frame_valid. rewrite !ntohs_load16.
  rewrite sizeof_arphdr_ether_ipv4, offsetof_ar_hrd, offsetof_ar_pro,
    offsetof_ar_hln, offsetof_ar_pln, Z.add_0_r.
  unfold ARPHRD_ETHER, ETHER_ADDR_LEN.
  rewrite !negb_false_iff, !Z.eqb_eq, Z.ltb_ge. tauto.
Qed.

(** X1. A frame that passes the validation is taken: when [pcap_next_ex]
    returned a packet, the frame is valid and [talloc_zero] succeeds, the
    listener allocates once, copies [caplen] bytes, and hands the packet
    (destination port 1, length [caplen]) to [request_receive]; it returns 1
    if that accepts the packet, and frees the packet and returns 0 if it
    does not. *)
Theorem arp_socket_recv_accepts (w : recv_env) :
  0 < pcap_rcode w ->
  frame_valid w ->
  talloc_zero_ok w = true ->
  arp_socket_recv w
    = if request_receive w (received_packet w)
      then (1, [CTallocZero true; CTallocMemdup (caplen (pcap_header w));
                CDebug; CRequestReceive (received_packet w) true])
      else (0, [CTallocZero true; CTallocMemdup (caplen (pcap_header w));
                CDebug; CRequestReceive (received_packet w) false; CRadFree]).
Proof.
  intros Hrc Hv Hz.
  destruct (recv_tests_of_valid w Hv) as (H1 & H2 & H3 & H4 & H5).
  unfold arp_socket_recv.
  replace (pcap_rcode w =? 0) with false by lia.
  replace (pcap_rcode w <? 0) with false by lia.
  rewrite H1, H2, H3, H4, H5, Hz. cbn [negb].
  fold (received_packet w).
  destruct (request_receive w (received_packet w)); reflexivity.
Qed.

Lemma arp_socket_recv_accepts_witness :
  arp_socket_recv (sample_recv arp_request_frame)
  = (1, [CTallocZero true; CTallocMemdup 42; CDebug;
         CRequestReceive (received_packet (sample_recv arp_request_frame)) true]).
Proof.
  rewrite (arp_socket_recv_accepts (sample_recv arp_request_frame));
    [reflexivity | reflexivity | vm_compute; repeat split; discriminate
     | reflexivity].
Defined.

(** The shape of every run: no call, the error report, the failed
    allocation, or allocation, copy and handover, with a free after a
    handover that was refused. *)
Lemma recv_shapes w :
  snd (arp_socket_recv w) = []
  \/ snd (arp_socket_recv w) = [CError (pcap_rcode w)]
  \/ snd (arp_socket_recv w) = [CTallocZero false]
  \/ (fst (arp_socket_recv w) = 1
      /\ request_receive w (received_packet w) = true
      /\ snd (arp_socket_recv w)
           = [CTallocZero true; CTallocMemdup (caplen (pcap_header w));
              CDebug; CRequestReceive (received_packet w) true])
  \/ (fst (arp_socket_recv w) = 0
      /\ request_receive w (received_packet w) = false
      /\ snd (arp_socket_recv w)
           = [CTallocZero true; CTallocMemdup (caplen (pcap_header w));
              CDebug; CRequestReceive (received_packet w) false; CRadFree]).
Proof.
  unfold arp_socket_recv. fold (received_packet w). cbv zeta.
  destruct (pcap_rcode w =? 0); [left; reflexivity |].
  destruct (pcap_rcode w <? 0); [right; left; reflexivity |].
  destruct (caplen _ <? _); [left; reflexivity |].
  destruct (negb (ntohs _ (arp16 w "ar_hrd") =? _)); [left; reflexivity |].
  destruct (negb (ntohs _ (arp16 w "ar_pro") =? _)); [left; reflexivity |].
  destruct (negb (arp8 w "ar_hln" =? _)); [left; reflexivity |].
  destruct (negb (arp8 w "ar_pln" =? _)); [left; reflexivity |].
  destruct (talloc_zero_ok w); cbn [negb]; [| right; right; left; reflexivity].
  destruct (request_receive w (received_packet w)) eqn:Hr; cbn [negb fst snd app].
  - do 3 right. left. auto.
  - do 4 right. auto.
Qed.

(** X2. [arp_socket_recv] does not leak the packet: it allocates at most
    once, and a packet it has allocated is either accepted by
    [request_receive], which is then the last call and the result is 1, or
    released by [rad_free], which is then the last call and the result is
    0. [rad_free] is never called on a packet that was not allocated. *)
Theorem arp_socket_recv_no_leak (w : recv_env) :
  (count_calls is_talloc_zero (snd (arp_socket_recv w)) <= 1)%nat
  /\ (CTallocZero true ∈ snd (arp_socket_recv w) ->
        (fst (arp_socket_recv w) = 1
         /\ last (snd (arp_socket_recv w))
              = Some (CRequestReceive (received_packet w) true)
         /\ count_calls is_rad_free (snd (arp_socket_recv w)) = 0%nat)
        \/ (fst (arp_socket_recv w) = 0
            /\ last (snd (arp_socket_recv w)) = Some CRadFree
            /\ count_calls is_rad_free (snd (arp_socket_recv w)) = 1%nat))
  /\ (CRadFree ∈ snd (arp_socket_recv w) ->
        CTallocZero true ∈ snd (arp_socket_recv w)).
Proof.
  destruct (recv_shapes w) as [H | [H | [H | [(Hr & Ha & H) | (Hr & Ha & H)]]]];
    rewrite H.
  - split; [cbv; lia |]. split; intros Hin; inversion Hin.
  - split; [cbv; lia |]. split; intros Hin;
      apply list_elem_of_In in Hin; simpl in Hin; intuition discriminate.
  - split; [cbv; lia |]. split; intros Hin;
      apply list_elem_of_In in Hin; simpl in Hin; intuition discriminate.
  - split; [cbv; lia |]. split.
    + intros _. left. split; [exact Hr |]. split; reflexivity.
    + intros Hin. apply list_elem_of_In in Hin. simpl in Hin.
      intuition discriminate.
  - split; [cbv; lia |]. split.
    + intros _. right. split; [exact Hr |]. split; reflexivity.
    + intros _. apply list_elem_of_In. simpl. auto.
Qed.

Lemma arp_socket_recv_no_leak_witness :
  fst (arp_socket_recv (sample_recv arp_request_frame)) = 1
  /\ last (snd (arp_socket_recv (sample_recv arp_request_frame)))
       = Some (CRequestReceive (received_packet (sample_recv arp_request_frame)) true).
Proof.
  destruct (arp_socket_recv_no_leak (sample_recv arp_request_frame))
    as (_ & Hbal & _).
  destruct Hbal as [(H1 & H2 & _) | (H0 & _)].
  - apply list_elem_of_In. vm_compute. auto.
  - split; [exact H1 | exact H2].
  - vm_compute in H0. discriminate H0.
Defined.

(** X3. The byte order of the host has no effect on [arp_socket_recv]:
    [ntohs] undoes it on the two 16-bit members, and the other members it
    reads are single bytes. *)
Theorem arp_socket_recv_any_host (w : recv_env) (h : endian) :
  arp_socket_recv (with_host w h) = arp_socket_recv w.
Proof.
  unfold arp_socket_recv, arp16, arp8, with_host. cbn [host sizeof_ethernet_header
    pcap_rcode pcap_header pcap_data talloc_zero_ok talloc_memdup_ok request_receive].
  rewrite !ntohs_load16. reflexivity.
Qed.

(** The listener gets to [talloc_zero] exactly when [pcap_next_ex] returned
    a packet and the frame is valid. *)
Lemma recv_allocates_iff w :
  Exists (fun c => is_talloc_zero c = true) (snd (arp_socket_recv w))
  <-> 0 < pcap_rcode w /\ frame_valid w.
Proof.
  split.
  - intros Hex.
    destruct (recv_shapes w) as [H | [H | [H | [(_ & _ & H) | (_ & _ & H)]]]];
      rewrite H in Hex.
    + inversion Hex.
    + apply Exists_cons in Hex as [Hc | Hn]; [discriminate Hc | inversion Hn].
    + revert H. unfold arp_socket_recv.
      destruct (pcap_rcode w =? 0) eqn:E0; [discriminate |].
      destruct (pcap_rcode w <? 0) eqn:E1; [discriminate |].
      destruct (caplen _ <? _) eqn:H1; [discriminate |].
      destruct (negb (ntohs _ (arp16 w "ar_hrd") =? _)) eqn:H2; [discriminate |].
      destruct (negb (ntohs _ (arp16 w "ar_pro") =? _)) eqn:H3; [discriminate |].
      destruct (negb (arp8 w "ar_hln" =? _)) eqn:H4; [discriminate |].
      destruct (negb (arp8 w "ar_pln" =? _)) eqn:H5; [discriminate |].
      intros _. split; [lia | apply recv_tests_valid; assumption].
    + revert H. unfold arp_socket_recv.
      destruct (pcap_rcode w =? 0) eqn:E0; [discriminate |].
      destruct (pcap_rcode w <? 0) eqn:E1; [discriminate |].
      destruct (caplen _ <? _) eqn:H1; [discriminate |].
      destruct (negb (ntohs _ (arp16 w "ar_hrd") =? _)) eqn:H2; [discriminate |].
      destruct (negb (ntohs _ (arp16 w "ar_pro") =? _)) eqn:H3; [discriminate |].
      destruct (negb (arp8 w "ar_hln" =? _)) eqn:H4; [discriminate |].
      destruct (negb (arp8 w "ar_pln" =? _)) eqn:H5; [discriminate |].
      intros _. split; [lia | apply recv_tests_valid; assumption].
    + revert H. unfold arp_socket_recv.
      destruct (pcap_rcode w =? 0) eqn:E0; [discriminate |].
      destruct (pcap_rcode w <? 0) eqn:E1; [discriminate |].
      destruct (caplen _ <? _) eqn:H1; [discriminate |].
      destruct (negb (ntohs _ (arp16 w "ar_hrd") =? _)) eqn:H2; [discriminate |].
      destruct (negb (ntohs _ (arp16 w "ar_pro") =? _)) eqn:H3; [discriminate |].
      destruct (negb (arp8 w "ar_hln" =? _)) eqn:H4; [discriminate |].
      destruct (negb (arp8 w "ar_pln" =? _)) eqn:H5; [discriminate |].
      intros _. split; [lia | apply recv_tests_valid; assumption].
  - intros [Hrc Hv].
    destruct (recv_tests_of_valid w Hv) as (H1 & H2 & H3 & H4 & H5).
    unfold arp_socket_recv.
    replace (pcap_rcode w =? 0) with false by lia.
    replace (pcap_rcode w <? 0) with false by lia.
    rewrite H1, H2, H3, H4, H5.
    destruct (talloc_zero_ok w); cbn [negb].
    + destruct (negb (request_receive w _)); cbn [snd app];
        apply Exists_cons_hd; reflexivity.
    + cbn [snd]. apply Exists_cons_hd. reflexivity.
Qed.

Lemma frame_valid_with_data w d :
  (forall i, sizeof_ethernet_header w <= i < sizeof_ethernet_header w + 6 ->
     byte_at d i = byte_at (pcap_data w) i) ->
  frame_valid (with_data w d) <-> frame_valid w.
Proof.
  intros Hd. unfold frame_valid, be16, with_data.
  cbn [sizeof_ethernet_header pcap_header pcap_data].
  rewrite !(Hd (sizeof_ethernet_header w)) by lia.
  rewrite !(Hd (sizeof_ethernet_header w + 1)) by lia.
  rewrite !(Hd (sizeof_ethernet_header w + 2)) by lia.
  rewrite !(Hd (sizeof_ethernet_header w + 2 + 1)) by lia.
  rewrite !(Hd (sizeof_ethernet_header w + 4)) by lia.
  rewrite !(Hd (sizeof_ethernet_header w + 5)) by lia.
  reflexivity.
Qed.

(** X4. Of the captured bytes, only the first six of the ARP header (the
    two formats and the two address lengths) decide whether a frame is
    taken: two frames of the same captured length that agree on these six
    bytes are both allocated for or both dropped, whatever their operation
    and their addresses are. *)
Theorem arp_socket_recv_reads_six_bytes (w : recv_env) (d : list Byte.byte) :
  (forall i, sizeof_ethernet_header w <= i < sizeof_ethernet_header w + 6 ->
     byte_at d i = byte_at (pcap_data w) i) ->
  Exists (fun c => is_talloc_zero c = true)
         (snd (arp_socket_recv (with_data w d)))
  <-> Exists (fun c => is_talloc_zero c = true) (snd (arp_socket_recv w)).
Proof.
  intros Hd. rewrite !recv_allocates_iff.
  rewrite (frame_valid_with_data w d Hd). reflexivity.
Qed.

Lemma arp_socket_recv_reads_six_bytes_witness :
  Exists (fun c => is_talloc_zero c = true)
         (snd (arp_socket_recv
                 (with_data (sample_recv arp_request_frame)
                    (take 20 arp_request_frame
                       ++ replicate 22 Byte.xff)))).
Proof.
  apply (arp_socket_recv_reads_six_bytes (sample_recv arp_request_frame)).
  - intros i Hi. cbn [sample_recv sizeof_ethernet_header pcap_data] in *.
    assert (i = 14 \/ i = 15 \/ i = 16 \/ i = 17 \/ i = 18 \/ i = 19) as Hc by lia.
    destruct Hc as [-> | [-> | [-> | [-> | [-> | ->]]]]]; reflexivity.
  - apply Exists_cons_hd. reflexivity.
Defined.

(** X5. [arp_process] returns 0 without calling anything when the packet
    is shorter than the Ethernet header, and otherwise calls
    [process_post_auth(0, request)] once and returns 1; a packet that ends
    with the Ethernet header passes. Where [size] is computed it is the
    number of bytes after the Ethernet header: the subtraction does not
    wrap. *)
Theorem arp_process_bounds (ether_len bits : Z) (packet : RADIUS_PACKET) :
  0 <= ether_len ->
  0 <= data_len packet < 2 ^ bits ->
  (data_len packet < ether_len ->
     arp_process ether_len bits packet = (0, None, []))
  /\ (ether_len <= data_len packet ->
        arp_process ether_len bits packet
          = (1, Some (data_len packet - ether_len), [CProcessPostAuth 0])
        /\ 0 <= data_len packet - ether_len < 2 ^ bits).
Proof.
  intros He Hd. unfold arp_process, size_t. split; intros Hc.
  - replace (ether_len >? data_len packet) with true by lia. reflexivity.
  - replace (ether_len >? data_len packet) with false by lia.
    rewrite Z.mod_small by lia. split; [reflexivity | lia].
Qed.

Lemma arp_process_bounds_witness :
  arp_process 14 64 {| dst_port := 1; data_len := 13; data := None |}
    = (0, None, [])
  /\ arp_process 14 64 {| dst_port := 1; data_len := 14; data := None |}
       = (1, Some 0, [CProcessPostAuth 0]).
Proof.
  split.
  - apply (proj1 (arp_process_bounds 14 64
                    {| dst_port := 1; data_len := 13; data := None |}
                    ltac:(lia) ltac:(cbn; lia))).
    cbn. lia.
  - apply (proj2 (arp_process_bounds 14 64
                    {| dst_port := 1; data_len := 14; data := None |}
                    ltac:(lia) ltac:(cbn; lia))).
    cbn. lia.
Defined.

(** A packet in the [request_receive] calls of a run is the packet the
    listener filled, and the frame was valid. *)
Lemma handed_received w pk :
  pk ∈ handed (snd (arp_socket_recv w)) ->
  pk = received_packet w /\ frame_valid w.
Proof.
  intros Hin.
  assert (frame_valid w) as Hv.
  { apply (proj1 (recv_allocates_iff w)).
    destruct (recv_shapes w) as [H | [H | [H | [(_ & _ & H) | (_ & _ & H)]]]];
      rewrite H in *; try (apply Exists_cons_hd; reflexivity);
      cbn in Hin; inversion Hin. }
  split; [| exact Hv].
  destruct (recv_shapes w) as [H | [H | [H | [(_ & _ & H) | (_ & _ & H)]]]];
    rewrite H in Hin; cbn in Hin;
    apply list_elem_of_In in Hin; simpl in Hin; intuition.
Qed.

(** X6. Every packet that [arp_socket_recv] hands to [request_receive]
    passes the length test of [arp_process], the function it is handed
    over with: [arp_process] returns 1 on it, calls [process_post_auth]
    once, and its [size] is the captured length less the Ethernet header,
    at least the 28 bytes of the ARP header. *)
Theorem arp_process_of_received (w : recv_env) (bits : Z) (pk : RADIUS_PACKET) :
  0 <= sizeof_ethernet_header w ->
  caplen (pcap_header w) < 2 ^ bits ->
  pk ∈ handed (snd (arp_socket_recv w)) ->
  arp_process (sizeof_ethernet_header w) bits pk
    = (1, Some (caplen (pcap_header w) - sizeof_ethernet_header w),
       [CProcessPostAuth 0])
  /\ 28 <= caplen (pcap_header w) - sizeof_ethernet_header w.
Proof.
  intros He Hb Hin.
  destruct (handed_received w pk Hin) as [-> Hv].
  destruct Hv as (Hlen & _).
  destruct (arp_process_bounds (sizeof_ethernet_header w) bits (received_packet w))
    as [_ Hok]; [exact He | cbn; lia |].
  destruct Hok as [Hrun _]; [cbn; lia |].
  split; [exact Hrun | lia].
Qed.

Lemma arp_process_of_received_witness :
  arp_process 14 64 (received_packet (sample_recv arp_request_frame))
    = (1, Some 28, [CProcessPostAuth 0]).
Proof.
  destruct (arp_process_of_received (sample_recv arp_request_frame) 64
              (received_packet (sample_recv arp_request_frame)))
    as [Hrun _].
  - cbn. lia.
  - cbn. lia.
  - apply list_elem_of_In. vm_compute. auto.
  - exact Hrun.
Defined.

(** ** Further properties of [arp_socket_decode] *)

Lemma arp_fields_bounds :
  Forall (fun f : string * Z * Z =>
            0 <= snd (fst f) /\ 0 < snd f /\ snd (fst f) + snd f <= 28)
         arp_fields.
Proof. repeat constructor; cbn; lia. Qed.

Section DecodeReads.
Context `{decoder}.

Lemma walked_elem (ether_len : Z) (calls : list decode_call) n p l :
  DData2vp n p l ∈ calls -> (n, p - ether_len, l) ∈ walked ether_len calls.
Proof.
  intros Hin. unfold walked. apply list_elem_of_omap.
  exists (DData2vp n p l). split; [exact Hin | reflexivity].
Qed.

(** A [data2vp] call of [arp_socket_decode] is for a field of the table, at
    the offset of the field. *)
Lemma decode_call_field (ether_len : Z) (mem : list Byte.byte)
    (vps : list VALUE_PAIR) (n : string) (p l : Z) :
  DData2vp n p l ∈ (arp_socket_decode ether_len mem vps).2 ->
  (n, p - ether_len, l) ∈ arp_fields.
Proof.
  intros Hin. unfold arp_socket_decode in Hin.
  destruct (arp_decode_loop_spec ether_len mem header_names 0 vps)
    as (calls & Hrun & _ & Hwalk & _).
  rewrite Z.add_0_r in Hrun. rewrite Hrun in Hin. cbn [snd] in Hin.
  rewrite fields_from_header_names in Hwalk.
  apply (walked_elem ether_len) in Hin.
  destruct Hwalk as [k Hk]. rewrite Hk. apply elem_of_app. left. exact Hin.
Qed.

(** X7. Every [data2vp] call of [arp_socket_decode] is for one of the nine
    fields of the table, at the offset of that field, and reads inside the
    28 bytes that follow the Ethernet header: it starts at or after the
    start of the ARP header, has a positive length, and ends at or before
    byte 28 of the header, whatever the dictionary and the decoder answer. *)
Theorem arp_socket_decode_reads_header (ether_len : Z) (mem : list Byte.byte)
    (vps : list VALUE_PAIR) (n : string) (p l : Z) :
  DData2vp n p l ∈ (arp_socket_decode ether_len mem vps).2 ->
  (n, p - ether_len, l) ∈ arp_fields
  /\ ether_len <= p
  /\ 0 < l
  /\ p + l <= ether_len + 28.
Proof.
  intros Hin. unfold arp_socket_decode in Hin.
  destruct (arp_decode_loop_spec ether_len mem header_names 0 vps)
    as (calls & Hrun & _ & Hwalk & _).
  rewrite Z.add_0_r in Hrun. rewrite Hrun in Hin. cbn [snd] in Hin.
  rewrite fields_from_header_names in Hwalk.
  apply (walked_elem ether_len) in Hin.
  destruct Hwalk as [k Hk].
  assert ((n, p - ether_len, l) ∈ arp_fields) as Hf
    by (rewrite Hk; apply elem_of_app; left; exact Hin).
  split; [exact Hf |].
  pose proof arp_fields_bounds as Hb. rewrite Forall_forall in Hb.
  specialize (Hb _ Hf). cbn [fst snd] in Hb. lia.
Qed.

Lemma decoded_prefix_all (ether_len : Z) (mem : list Byte.byte)
    (fs : list (string * Z * Z)) :
  Forall (fun f => is_Some (field_decodes ether_len mem f)) fs ->
  length (decoded_prefix ether_len mem fs) = length fs.
Proof.
  induction 1 as [| f fs [vp Hf] _ IH]; [reflexivity |].
  cbn [decoded_prefix]. rewrite Hf. cbn [length]. rewrite IH. reflexivity.
Qed.

(** X8. When the dictionary has the nine attributes and [data2vp] returns a
    positive length on each of the nine fields of the packet,
    [arp_socket_decode] decodes the whole header: it calls [data2vp] on the
    nine fields in order and adds nine pairs after the pairs the packet
    had. *)
Theorem arp_socket_decode_complete (ether_len : Z) (mem : list Byte.byte)
    (vps : list VALUE_PAIR) :
  (forall n off l,
     (n, off, l) ∈ arp_fields ->
     exists da,
       dict_attrbyname n = Some da
       /\ 0 < fst (data2vp da (drop (Z.to_nat (ether_len + off)) mem) l l)) ->
  walked ether_len (arp_socket_decode ether_len mem vps).2 = arp_fields
  /\ length (pair_adds (arp_socket_decode ether_len mem vps).2) = 9%nat
  /\ length (arp_socket_decode ether_len mem vps).1.2 = (length vps + 9)%nat
  /\ take (length vps) (arp_socket_decode ether_len mem vps).1.2 = vps.
Proof.
  intros Hdec. unfold arp_socket_decode.
  destruct (arp_decode_loop_spec ether_len mem header_names 0 vps)
    as (calls & Hrun & Hadd & Hwalk & Hlen).
  rewrite Z.add_0_r in Hrun. rewrite Hrun. cbn [fst snd].
  rewrite fields_from_header_names in *.
  assert (length (decoded_prefix ether_len mem arp_fields) = 9%nat) as H9.
  { rewrite decoded_prefix_all; [reflexivity |].
    apply Forall_forall. intros [[n off] l] Hf.
    destruct (Hdec n off l Hf) as (da & Hda & Hpos).
    unfold field_decodes. rewrite Hda.
    destruct (data2vp da _ l l) as [r vp]. cbn [fst] in Hpos.
    replace (0 <? r) with true by lia. eexists. reflexivity. }
  split; [| split; [| split]].
  - apply prefix_length_eq; [exact Hwalk |].
    rewrite Hadd, H9 in Hlen. cbn [length arp_fields]. exact Hlen.
  - rewrite Hadd. exact H9.
  - rewrite length_app, H9. reflexivity.
  - apply take_app_length.
Qed.

End DecodeReads.

Lemma arp_socket_decode_reads_header_witness :
  ("ARP-Operation"%string, 6, 2) ∈ arp_fields /\ 14 <= 20 /\ 0 < 2 /\ 20 + 2 <= 14 + 28.
Proof.
  apply (@arp_socket_decode_reads_header (sample_decoder None) 14
           arp_request_frame [] "ARP-Operation" 20 2).
  apply list_elem_of_In. vm_compute. auto 20.
Defined.

Lemma arp_socket_decode_complete_witness :
  @walked (sample_decoder None) 14
    (@arp_socket_decode (sample_decoder None) 14 arp_request_frame []).2
  = arp_fields.
Proof.
  apply (@arp_socket_decode_complete (sample_decoder None) 14 arp_request_frame []).
  intros n off l Hf. exists n. split; [reflexivity |]. cbn [sample_decoder data2vp fst].
  pose proof arp_fields_bounds as Hb. rewrite Forall_forall in Hb.
  specialize (Hb _ Hf). cbn [fst snd] in Hb. lia.
Defined.

(** ** [arp_socket_recv] followed by [arp_socket_decode] *)

(** The data of a packet that was handed over: the first [caplen] bytes of
    the capture, at least the Ethernet header and the 28 bytes of ARP. *)
Lemma handed_data w pk mem :
  Z.of_nat (length (pcap_data w)) >= caplen (pcap_header w) ->
  0 <= sizeof_ethernet_header w ->
  pk ∈ handed (snd (arp_socket_recv w)) ->
  data pk = Some mem ->
  mem = take (Z.to_nat (caplen (pcap_header w))) (pcap_data w)
  /\ Z.of_nat (length mem) = caplen (pcap_header w)
  /\ data_len pk = caplen (pcap_header w)
  /\ frame_valid w.
Proof.
  intros Hcap He Hin Hd.
  destruct (handed_received w pk Hin) as [-> Hv].
  pose proof Hv as (Hlen & _).
  unfold received_packet in Hd. cbn [data] in Hd.
  destruct (talloc_memdup_ok w); [| discriminate].
  injection Hd as <-.
  split; [reflexivity |]. split; [| split; [reflexivity | exact Hv]].
  rewrite length_take_le by lia. lia.
Qed.

(** What [talloc_memdup] left in a packet that was handed over: the copy,
    or NULL with the length set all the same. *)
Lemma handed_memdup w pk :
  pk ∈ handed (snd (arp_socket_recv w)) ->
  data_len pk = caplen (pcap_header w)
  /\ data pk = if talloc_memdup_ok w
               then Some (take (Z.to_nat (caplen (pcap_header w))) (pcap_data w))
               else None.
Proof.
  intros Hin. destruct (handed_received w pk Hin) as [-> _].
  split; reflexivity.
Qed.

(** X9. A packet that [arp_socket_recv] handed over, the capture holding
    the [caplen] bytes its header announces. If [talloc_memdup] succeeded,
    decoding stays inside the copy: the packet holds [data_len] bytes and
    every [data2vp] call of [arp_socket_decode] reads bytes the packet has.
    If [talloc_memdup] failed, which the listener does not check, the
    packet was handed over with [data] NULL and [data_len] still
    [caplen]. *)
Theorem arp_socket_decode_in_capture `{decoder} (w : recv_env)
    (pk : RADIUS_PACKET) :
  Z.of_nat (length (pcap_data w)) >= caplen (pcap_header w) ->
  0 <= sizeof_ethernet_header w ->
  pk ∈ handed (snd (arp_socket_recv w)) ->
  (talloc_memdup_ok w = false ->
     data pk = None /\ data_len pk = caplen (pcap_header w))
  /\ (talloc_memdup_ok w = true ->
        exists mem,
          data pk = Some mem
          /\ Z.of_nat (length mem) = data_len pk
          /\ forall vps n p l,
               DData2vp n p l
                 ∈ (arp_socket_decode (sizeof_ethernet_header w) mem vps).2 ->
               0 <= p /\ 0 < l /\ p + l <= Z.of_nat (length mem)).
Proof.
  intros Hcap He Hin.
  destruct (handed_memdup w pk Hin) as [Hdl Hd].
  split; intros Hok; rewrite Hok in Hd.
  - split; [exact Hd | exact Hdl].
  - eexists. split; [exact Hd |].
    destruct (handed_data w pk _ Hcap He Hin Hd) as (_ & Hlen & _ & Hv).
    destruct Hv as (Hv & _).
    split; [lia |].
    intros vps n p l Hcall.
    apply decode_call_field in Hcall.
    pose proof arp_fields_bounds as Hb. rewrite Forall_forall in Hb.
    specialize (Hb _ Hcall). cbn [fst snd] in Hb. lia.
Qed.

Lemma arp_socket_decode_in_capture_witness :
  exists mem,
    data (received_packet (sample_recv arp_request_frame)) = Some mem
    /\ Z.of_nat (length mem)
       = data_len (received_packet (sample_recv arp_request_frame)).
Proof.
  destruct (@arp_socket_decode_in_capture (sample_decoder None)
              (sample_recv arp_request_frame)
              (received_packet (sample_recv arp_request_frame)))
    as (_ & Hok).
  - cbn. lia.
  - cbn. lia.
  - apply list_elem_of_In. vm_compute. auto.
  - destruct Hok as (mem & Hd & Hlen & _); [reflexivity |].
    exists mem. split; [exact Hd | exact Hlen].
Defined.

Lemma u8_inj b b' : u8 b = u8 b' -> b = b'.
Proof.
  unfold u8. intros Heq. apply N2Z.inj in Heq.
  pose proof (Byte.of_to_N b) as Hb. rewrite Heq, Byte.of_to_N in Hb.
  congruence.
Qed.

Lemma byte_at_lookup (mem : list Byte.byte) (i : Z) :
  0 <= i < Z.of_nat (length mem) ->
  exists b, mem !! Z.to_nat i = Some b /\ byte_at mem i = u8 b.
Proof.
  intros Hi.
  destruct (lookup_lt_is_Some_2 mem (Z.to_nat i)) as [b Hb]; [lia |].
  exists b. split; [exact Hb |].
  unfold byte_at. replace (i <? 0) with false by lia. rewrite Hb. reflexivity.
Qed.

Lemma take_drop_1 {A} (l : list A) (i : nat) (x : A) :
  l !! i = Some x -> take 1 (drop i l) = [x].
Proof. intros Hx. rewrite (drop_S _ _ _ Hx). reflexivity. Qed.

Lemma take_drop_2 {A} (l : list A) (i : nat) (x y : A) :
  l !! i = Some x -> l !! S i = Some y -> take 2 (drop i l) = [x; y].
Proof.
  intros Hx Hy. rewrite (drop_S _ _ _ Hx), (drop_S _ _ _ Hy). reflexivity.
Qed.

(** The bytes of the four validated members in the copy of a frame that was
    handed over. *)
Lemma handed_header_bytes (w : recv_env) (pk : RADIUS_PACKET)
    (mem : list Byte.byte) :
  Z.of_nat (length (pcap_data w)) >= caplen (pcap_header w) ->
  0 <= sizeof_ethernet_header w ->
  pk ∈ handed (snd (arp_socket_recv w)) ->
  data pk = Some mem ->
  take 2 (drop (Z.to_nat (sizeof_ethernet_header w + 0)) mem)
    = [Byte.x00; Byte.x01]
  /\ take 2 (drop (Z.to_nat (sizeof_ethernet_header w + 2)) mem)
       = [Byte.x08; Byte.x00]
  /\ take 1 (drop (Z.to_nat (sizeof_ethernet_header w + 4)) mem) = [Byte.x06]
  /\ take 1 (drop (Z.to_nat (sizeof_ethernet_header w + 5)) mem) = [Byte.x04].
Proof.
  intros Hcap He Hin Hd.
  destruct (handed_data w pk mem Hcap He Hin Hd) as (Hmem & Hlen & _ & Hv).
  destruct Hv as (Hv & Hhrd & Hpro & Hhln & Hpln).
  set (e := sizeof_ethernet_header w) in *.
  assert (forall i, e <= i < e + 6 ->
            exists b, mem !! Z.to_nat i = Some b
                      /\ byte_at (pcap_data w) i = u8 b) as Hb.
  { intros i Hi.
    destruct (byte_at_lookup (pcap_data w) i) as (b & Hl & Hu); [lia |].
    exists b. split; [| exact Hu].
    rewrite Hmem, lookup_take_lt by lia. exact Hl. }
  unfold be16 in Hhrd, Hpro.
  destruct (Hb e) as (b0 & L0 & U0); [lia |].
  destruct (Hb (e + 1)) as (b1 & L1 & U1); [lia |].
  destruct (Hb (e + 2)) as (b2 & L2 & U2); [lia |].
  destruct (Hb (e + 2 + 1)) as (b3 & L3 & U3); [lia |].
  destruct (Hb (e + 4)) as (b4 & L4 & U4); [lia |].
  destruct (Hb (e + 5)) as (b5 & L5 & U5); [lia |].
  rewrite U0, U1 in Hhrd. rewrite U2, U3 in Hpro.
  rewrite U4 in Hhln. rewrite U5 in Hpln.
  pose proof (u8_range b0). pose proof (u8_range b1).
  pose proof (u8_range b2). pose proof (u8_range b3).
  assert (b0 = Byte.x00) as -> by (apply u8_inj; change (u8 Byte.x00) with 0; lia).
  assert (b1 = Byte.x01) as -> by (apply u8_inj; change (u8 Byte.x01) with 1; lia).
  assert (b2 = Byte.x08) as -> by (apply u8_inj; change (u8 Byte.x08) with 8; lia).
  assert (b3 = Byte.x00) as -> by (apply u8_inj; change (u8 Byte.x00) with 0; lia).
  assert (b4 = Byte.x06) as -> by (apply u8_inj; change (u8 Byte.x06) with 6; lia).
  assert (b5 = Byte.x04) as -> by (apply u8_inj; change (u8 Byte.x04) with 4; lia).
  rewrite Z.add_0_r.
  replace (Z.to_nat (e + 1)) with (S (Z.to_nat e)) in L1 by lia.
  replace (Z.to_nat (e + 2 + 1)) with (S (Z.to_nat (e + 2))) in L3 by lia.
  split; [apply take_drop_2; assumption |].
  split; [apply take_drop_2; assumption |].
  split; apply take_drop_1; assumption.
Qed.

(** X10. What [arp_socket_recv] has validated is what [arp_socket_decode]
    gives to [data2vp]. In a packet that was handed over with its copy of
    the capture ([talloc_memdup] succeeded, the capture holding its
    [caplen] bytes), whatever the dictionary and the decoder: the [data2vp]
    call for "ARP-Hardware-Format" is at the offset of the member [ar_hrd]
    of the struct and on the bytes 00 01, the call for
    "ARP-Protocol-Format" at the offset of [ar_pro] and on 08 00, the calls
    for the two address lengths at the offsets of [ar_hln] and [ar_pln] and
    on 06 and 04. *)
Theorem arp_socket_decode_sees_validated `{decoder} (w : recv_env)
    (pk : RADIUS_PACKET) :
  Z.of_nat (length (pcap_data w)) >= caplen (pcap_header w) ->
  0 <= sizeof_ethernet_header w ->
  pk ∈ handed (snd (arp_socket_recv w)) ->
  talloc_memdup_ok w = true ->
  exists mem,
    data pk = Some mem
    /\ forall vps n p l,
         DData2vp n p l
           ∈ (arp_socket_decode (sizeof_ethernet_header w) mem vps).2 ->
         (n = "ARP-Hardware-Format"%string ->
            p = sizeof_ethernet_header w + offsetof arphdr_ether_ipv4 "ar_hrd"
            /\ take (Z.to_nat l) (drop (Z.to_nat p) mem) = [Byte.x00; Byte.x01])
         /\ (n = "ARP-Protocol-Format"%string ->
               p = sizeof_ethernet_header w + offsetof arphdr_ether_ipv4 "ar_pro"
               /\ take (Z.to_nat l) (drop (Z.to_nat p) mem)
                  = [Byte.x08; Byte.x00])
         /\ (n = "ARP-Hardware-Address-Length"%string ->
               p = sizeof_ethernet_header w + offsetof arphdr_ether_ipv4 "ar_hln"
               /\ take (Z.to_nat l) (drop (Z.to_nat p) mem) = [Byte.x06])
         /\ (n = "ARP-Protocol-Address-Length"%string ->
               p = sizeof_ethernet_header w + offsetof arphdr_ether_ipv4 "ar_pln"
               /\ take (Z.to_nat l) (drop (Z.to_nat p) mem) = [Byte.x04]).
Proof.
  intros Hcap He Hin Hok.
  destruct (handed_memdup w pk Hin) as [_ Hd]. rewrite Hok in Hd.
  eexists. split; [exact Hd |].
  destruct (handed_header_bytes w pk _ Hcap He Hin Hd) as (B0 & B2 & B4 & B5).
  intros vps n p l Hcall.
  apply decode_call_field in Hcall.
  rewrite offsetof_ar_hrd, offsetof_ar_pro, offsetof_ar_hln, offsetof_ar_pln.
  apply list_elem_of_In in Hcall. simpl in Hcall.
  repeat match goal with
         | Hor : _ \/ _ |- _ => destruct Hor
         end; try contradiction;
    match goal with
    | Heq : (_, _, _) = (n, _, l) |- _ => injection Heq as Hname Hoff Hl
    end; subst n l;
    (split; [| split; [| split]]); intros Hn; try discriminate Hn;
    (split; [lia |]);
    match goal with
    | Hoff : ?k = p - _ |- _ =>
        replace p with (sizeof_ethernet_header w + k) by lia
    end;
    first [exact B0 | exact B2 | exact B4 | exact B5].
Qed.

Lemma arp_socket_decode_sees_validated_witness :
  exists mem,
    data (received_packet (sample_recv arp_request_frame)) = Some mem
    /\ take 2 (drop (Z.to_nat 16) mem) = [Byte.x08; Byte.x00].
Proof.
  destruct (@arp_socket_decode_sees_validated (sample_decoder None)
              (sample_recv arp_request_frame)
              (received_packet (sample_recv arp_request_frame)))
    as (mem & Hd & Hcalls).
  - cbn. lia.
  - cbn. lia.
  - apply list_elem_of_In. vm_compute. auto.
  - reflexivity.
  - exists mem. split; [exact Hd |].
    injection Hd as <-.
    destruct (Hcalls [] "ARP-Protocol-Format"%string 16 2) as (_ & Hpro & _).
    + apply list_elem_of_In. vm_compute. auto 40.
    + destruct (Hpro eq_refl) as [_ Hb]. exact Hb.
Defined.

(** ** Further properties of [arp_socket_parse] and [arp_socket_print] *)

Section ParseMore.
Context `{parser}.

(** The seven ways through [arp_socket_parse]. *)
Lemma parse_shapes (cs : CONF_SECTION) (this : rad_listen_t) :
  (cf_pair_find cs "interface" = None
   /\ arp_socket_parse cs this
        = (-1, this, [PLogErr "'interface' is required for arp"]))
  \/ (exists cp,
        cf_pair_find cs "interface" = Some cp /\ cf_pair_value cp = None
        /\ arp_socket_parse cs this
             = (-1, this, [PLogErr "No interface name given"]))
  \/ (exists cp value,
        cf_pair_find cs "interface" = Some cp /\ cf_pair_value cp = Some value
        /\ ((fr_pcap_init cs value = None
             /\ arp_socket_parse cs this
                  = (-1,
                     set_sock this (set_pcap (set_interface (sock this) value) None),
                     [PPcapInit value;
                      PLogErr "Failed creating pcap for interface %s"]))
            \/ (exists pc,
                  fr_pcap_init cs value = Some pc
                  /\ ((check_config <> 0
                       /\ arp_socket_parse cs this
                            = (0,
                               set_sock this
                                 (set_pcap (set_interface (sock this) value) (Some pc)),
                               [PPcapInit value]))
                      \/ (check_config = 0 /\ fr_pcap_open pc < 0
                          /\ arp_socket_parse cs this
                               = (-1,
                                  set_sock this
                                    (set_pcap (set_interface (sock this) value)
                                       (Some pc)),
                                  [PPcapInit value; PSuidUp; PPcapOpen;
                                   PLogErr "Failed opening interface %s: %s"]))
                      \/ (check_config = 0 /\ 0 <= fr_pcap_open pc
                          /\ fr_pcap_apply_filter pc "arp" < 0
                          /\ arp_socket_parse cs this
                               = (-1,
                                  set_sock this
                                    (set_pcap (set_interface (sock this) value)
                                       (Some pc)),
                                  [PPcapInit value; PSuidUp; PPcapOpen; PSuidDown;
                                   PApplyFilter "arp";
                                   PLogErr
                                     "Failed setting filter for interface %s: %s"]))
                      \/ (check_config = 0 /\ 0 <= fr_pcap_open pc
                          /\ 0 <= fr_pcap_apply_filter pc "arp"
                          /\ arp_socket_parse cs this
                               = (0,
                                  {| sock :=
                                       set_client
                                         (set_pcap (set_interface (sock this) value)
                                            (Some pc))
                                         {| ipaddr_af_inet := true;
                                            ipaddr_inaddr_none := true;
                                            prefix := 0;
                                            longname := Some value;
                                            shortname := Some value;
                                            secret := Some value;
                                            nas_type := talloc_strdup "none" |};
                                     fd := pcap_fd pc;
                                     nodup := true |},
                                  [PPcapInit value; PSuidUp; PPcapOpen; PSuidDown;
                                   PApplyFilter "arp"])))))).
Proof.
  unfold arp_socket_parse.
  destruct (cf_pair_find cs "interface") as [cp |] eqn:Hcp; [| left; auto].
  right. destruct (cf_pair_value cp) as [value |] eqn:Hv; [| left; eauto].
  right. exists cp, value. split; [reflexivity |]. split; [exact Hv |].
  destruct (fr_pcap_init cs value) as [pc |] eqn:Hpc; [| left; auto].
  right. exists pc. split; [reflexivity |].
  destruct (Z.eqb_spec check_config 0) as [Hc | Hc]; cbn [negb]; [| left; auto].
  right.
  destruct (Z.ltb_spec (fr_pcap_open pc) 0); [left; auto |].
  right.
  destruct (Z.ltb_spec (fr_pcap_apply_filter pc "arp") 0); [left; auto |].
  right. auto.
Qed.

(** A return of -1, or a return of 0 with the interface name set. *)
Lemma arp_socket_parse_result_cases (cs : CONF_SECTION) (this : rad_listen_t) :
  (arp_socket_parse cs this).1.1 = -1
  \/ ((arp_socket_parse cs this).1.1 = 0
      /\ exists cp value pc,
           cf_pair_find cs "interface" = Some cp
           /\ cf_pair_value cp = Some value
           /\ fr_pcap_init cs value = Some pc
           /\ interface (sock (arp_socket_parse cs this).1.2) = Some value
           /\ pcap (sock (arp_socket_parse cs this).1.2) = Some pc).
Proof.
  destruct (parse_shapes cs this)
    as [(_ & ->) | [(cp & _ & _ & ->) | (cp & value & Hcp & Hv & Hrest)]];
    [left; reflexivity ..|].
  destruct Hrest as [(_ & ->) | (pc & Hpc & Hrest)];
    [left; reflexivity |].
  destruct Hrest as [(_ & ->) | [(_ & _ & ->) | [(_ & _ & _ & ->) | (_ & _ & _ & ->)]]];
    [right | left; reflexivity
     | left; reflexivity | right];
    (split; [reflexivity |]); exists cp, value, pc; auto.
Qed.

(** X11. With [check_config] clear, the interface given, its pcap handle
    created, opened and filtered, [arp_socket_parse] returns 0 after exactly
    these calls: create, raise privileges, open, drop privileges, apply the
    filter "arp". The listener gets the descriptor of the handle and
    [nodup], and the socket a fake client whose long name, short name and
    secret are all the interface name and whose NAS type is what
    [talloc_strdup] made of "none": NULL if that allocation failed, which
    the function does not check. *)
Theorem arp_socket_parse_opens (cs : CONF_SECTION) (this : rad_listen_t)
    (cp : CONF_PAIR) (value : string) (pc : fr_pcap_t) :
  check_config = 0 ->
  cf_pair_find cs "interface" = Some cp ->
  cf_pair_value cp = Some value ->
  fr_pcap_init cs value = Some pc ->
  0 <= fr_pcap_open pc ->
  0 <= fr_pcap_apply_filter pc "arp" ->
  (arp_socket_parse cs this).1.1 = 0
  /\ (arp_socket_parse cs this).2
       = [PPcapInit value; PSuidUp; PPcapOpen; PSuidDown; PApplyFilter "arp"]
  /\ fd (arp_socket_parse cs this).1.2 = pcap_fd pc
  /\ nodup (arp_socket_parse cs this).1.2 = true
  /\ interface (sock (arp_socket_parse cs this).1.2) = Some value
  /\ pcap (sock (arp_socket_parse cs this).1.2) = Some pc
  /\ counter (sock (arp_socket_parse cs this).1.2) = counter (sock this)
  /\ longname (client (sock (arp_socket_parse cs this).1.2)) = Some value
  /\ shortname (client (sock (arp_socket_parse cs this).1.2)) = Some value
  /\ secret (client (sock (arp_socket_parse cs this).1.2)) = Some value
  /\ nas_type (client (sock (arp_socket_parse cs this).1.2))
       = talloc_strdup "none"
  /\ prefix (client (sock (arp_socket_parse cs this).1.2)) = 0.
Proof.
  intros Hc Hcp Hv Hpc Ho Hf. unfold arp_socket_parse.
  rewrite Hcp, Hv, Hpc, Hc.
  replace (fr_pcap_open pc <? 0) with false by lia.
  replace (fr_pcap_apply_filter pc "arp" <? 0) with false by lia.
  cbn. repeat split.
Qed.

(** X12. [arp_socket_parse] returns 0 or -1. Every return of -1 is reported
    by one [cf_log_err_cs], its last call, and leaves the descriptor,
    [nodup], the counter and the client of the listener as they were; a
    return of 0 reports nothing and leaves the interface name and the pcap
    handle set. *)
Theorem arp_socket_parse_result (cs : CONF_SECTION) (this : rad_listen_t) :
  ((arp_socket_parse cs this).1.1 = -1
   /\ (exists msg, last (arp_socket_parse cs this).2 = Some (PLogErr msg))
   /\ count_calls (fun c => match c with PLogErr _ => true | _ => false end)
        (arp_socket_parse cs this).2 = 1%nat
   /\ fd (arp_socket_parse cs this).1.2 = fd this
   /\ nodup (arp_socket_parse cs this).1.2 = nodup this
   /\ counter (sock (arp_socket_parse cs this).1.2) = counter (sock this)
   /\ client (sock (arp_socket_parse cs this).1.2) = client (sock this))
  \/ ((arp_socket_parse cs this).1.1 = 0
      /\ count_calls (fun c => match c with PLogErr _ => true | _ => false end)
           (arp_socket_parse cs this).2 = 0%nat
      /\ (exists cp value pc,
            cf_pair_find cs "interface" = Some cp
            /\ cf_pair_value cp = Some value
            /\ fr_pcap_init cs value = Some pc
            /\ interface (sock (arp_socket_parse cs this).1.2) = Some value
            /\ pcap (sock (arp_socket_parse cs this).1.2) = Some pc)).
Proof.
  destruct (parse_shapes cs this)
    as [(_ & ->) | [(cp & _ & _ & ->) | (cp & value & Hcp & Hv & Hrest)]].
  - left. cbn. repeat split; eauto.
  - left. cbn. repeat split; eauto.
  - destruct Hrest as [(_ & ->) | (pc & Hpc & Hrest)].
    + left. cbn. repeat split; eauto.
    + destruct Hrest as [(_ & ->) | [(_ & _ & ->) | [(_ & _ & _ & ->) | (_ & _ & _ & ->)]]].
      * right. cbn. repeat split. exists cp, value, pc. auto.
      * left. cbn. repeat split; eauto.
      * left. cbn. repeat split; eauto.
      * right. cbn. repeat split. exists cp, value, pc. auto.
Qed.

(** X13. Privileges in [arp_socket_parse]: [fr_pcap_open] is called right
    after [fr_suid_up], and the filter, always "arp", is applied only after
    [fr_suid_down]. [fr_suid_down] follows every [fr_suid_up] except when
    [fr_pcap_open] fails: the function then returns -1 with the privileges
    it raised still raised. *)
Theorem arp_socket_parse_privileges (cs : CONF_SECTION) (this : rad_listen_t) :
  (forall e, PApplyFilter e ∈ (arp_socket_parse cs this).2 ->
     e = "arp"%string
     /\ exists pre post,
          (arp_socket_parse cs this).2 = pre ++ PSuidDown :: PApplyFilter e :: post)
  /\ (PPcapOpen ∈ (arp_socket_parse cs this).2 ->
        exists pre post,
          (arp_socket_parse cs this).2 = pre ++ PSuidUp :: PPcapOpen :: post)
  /\ (count_calls is_suid_up (arp_socket_parse cs this).2
        = count_calls is_suid_down (arp_socket_parse cs this).2
      \/ (count_calls is_suid_up (arp_socket_parse cs this).2 = 1%nat
          /\ count_calls is_suid_down (arp_socket_parse cs this).2 = 0%nat
          /\ (arp_socket_parse cs this).1.1 = -1
          /\ exists pc, pcap (sock (arp_socket_parse cs this).1.2) = Some pc
                        /\ fr_pcap_open pc < 0))
  /\ (forall cp value pc,
        check_config = 0 ->
        cf_pair_find cs "interface" = Some cp ->
        cf_pair_value cp = Some value ->
        fr_pcap_init cs value = Some pc ->
        fr_pcap_open pc < 0 ->
        (arp_socket_parse cs this).1.1 = -1
        /\ count_calls is_suid_up (arp_socket_parse cs this).2 = 1%nat
        /\ count_calls is_suid_down (arp_socket_parse cs this).2 = 0%nat).
Proof.
  split; [| split; [| split]].
  - intros e Hin.
    destruct (parse_shapes cs this)
      as [(_ & Hr) | [(cp & _ & _ & Hr) | (cp & value & Hcp & Hv & Hrest)]];
      [rewrite Hr in Hin; cbn in Hin; apply list_elem_of_In in Hin;
       simpl in Hin; intuition discriminate ..|].
    destruct Hrest as [(_ & Hr) | (pc & Hpc & Hrest)];
      [rewrite Hr in Hin; cbn in Hin; apply list_elem_of_In in Hin;
       simpl in Hin; intuition discriminate |].
    destruct Hrest as [(_ & Hr) | [(_ & _ & Hr) | [(_ & _ & _ & Hr) | (_ & _ & _ & Hr)]]];
      rewrite Hr in *; cbn [snd] in *; apply list_elem_of_In in Hin;
      simpl in Hin;
      repeat match goal with
             | H : _ \/ _ |- _ => destruct H
             | H : False |- _ => destruct H
             | H : _ = PApplyFilter _ |- _ => first [discriminate H | injection H as <-]
             end.
    + split; [reflexivity |].
      exists [PPcapInit value; PSuidUp; PPcapOpen],
        [PLogErr "Failed setting filter for interface %s: %s"]. reflexivity.
    + split; [reflexivity |].
      exists [PPcapInit value; PSuidUp; PPcapOpen], []. reflexivity.
  - intros Hin.
    destruct (parse_shapes cs this)
      as [(_ & Hr) | [(cp & _ & _ & Hr) | (cp & value & Hcp & Hv & Hrest)]];
      [rewrite Hr in Hin; cbn in Hin; apply list_elem_of_In in Hin;
       simpl in Hin; intuition discriminate ..|].
    destruct Hrest as [(_ & Hr) | (pc & Hpc & Hrest)];
      [rewrite Hr in Hin; cbn in Hin; apply list_elem_of_In in Hin;
       simpl in Hin; intuition discriminate |].
    destruct Hrest as [(_ & Hr) | [(_ & _ & Hr) | [(_ & _ & _ & Hr) | (_ & _ & _ & Hr)]]];
      rewrite Hr in *; cbn [snd] in *.
    + apply list_elem_of_In in Hin. simpl in Hin. intuition discriminate.
    + exists [PPcapInit value], [PLogErr "Failed opening interface %s: %s"].
      reflexivity.
    + exists [PPcapInit value],
        [PSuidDown; PApplyFilter "arp";
         PLogErr "Failed setting filter for interface %s: %s"]. reflexivity.
    + exists [PPcapInit value], [PSuidDown; PApplyFilter "arp"]. reflexivity.
  - destruct (parse_shapes cs this)
      as [(_ & ->) | [(cp & _ & _ & ->) | (cp & value & Hcp & Hv & Hrest)]];
      [left; reflexivity .. |].
    destruct Hrest as [(_ & ->) | (pc & Hpc & Hrest)]; [left; reflexivity |].
    destruct Hrest as [(_ & ->) | [(_ & Ho & ->) | [(_ & _ & _ & ->) | (_ & _ & _ & ->)]]];
      [left; reflexivity | | left; reflexivity | left; reflexivity].
    right. cbn. repeat split. exists pc. split; [reflexivity | exact Ho].
  - intros cp value pc Hc Hcp Hv Hpc Ho. unfold arp_socket_parse.
    rewrite Hcp, Hv, Hpc, Hc.
    replace (fr_pcap_open pc <? 0) with true by lia.
    cbn. repeat split.
Qed.

(** X14. [arp_socket_print] never writes past the buffer and returns 1
    also when the text was cut: with the interface name set it stores at
    most [bufsize] bytes, nothing for a size of 0 and else a beginning of
    "arp interface " followed by the name, ended by a NUL; the whole text
    when the buffer is longer than it. *)
Theorem arp_socket_print_bounded (this : rad_listen_t) (bufsize : Z)
    (v : string) :
  interface (sock this) = Some v ->
  0 <= bufsize ->
  exists out,
    arp_socket_print this bufsize = Some (1, out)
    /\ Z.of_nat (length out) <= bufsize
    /\ (bufsize = 0 -> out = [])
    /\ (0 < bufsize ->
          exists body,
            out = body ++ [Ascii.zero]
            /\ body `prefix_of`
                 list_ascii_of_string (String.append "arp interface " v))
    /\ (Z.of_nat (length (list_ascii_of_string (String.append "arp interface " v)))
          < bufsize ->
        out = list_ascii_of_string (String.append "arp interface " v)
                ++ [Ascii.zero]).
Proof.
  intros Hi Hb. unfold arp_socket_print. rewrite Hi.
  set (text := list_ascii_of_string (String.append "arp interface " v)).
  exists (snprintf bufsize (String.append "arp interface " v)).
  split; [reflexivity |]. unfold snprintf. fold text.
  destruct (Z.leb_spec bufsize 0) as [Hle | Hgt].
  - split; [simpl; lia |]. split; [reflexivity |].
    split; intros; lia.
  - split.
    { rewrite length_app. cbn [length].
      pose proof (firstn_le_length (Z.to_nat (bufsize - 1)) text). lia. }
    split; [lia |]. split.
    + intros _. eexists. split; [reflexivity | apply prefix_take].
    + intros Hlen. rewrite take_ge by lia. reflexivity.
Qed.

(** X15. After an [arp_socket_parse] that returned 0, [arp_socket_print]
    is defined and prints the interface name of the configuration: its
    result is 1 and the buffer holds what [snprintf] makes of
    "arp interface " followed by the value of the "interface" pair. *)
Theorem arp_socket_print_after_parse (cs : CONF_SECTION) (this : rad_listen_t)
    (bufsize : Z) :
  (arp_socket_parse cs this).1.1 = 0 ->
  exists cp value,
    cf_pair_find cs "interface" = Some cp
    /\ cf_pair_value cp = Some value
    /\ arp_socket_print (arp_socket_parse cs this).1.2 bufsize
         = Some (1, snprintf bufsize (String.append "arp interface " value)).
Proof.
  intros H0.
  destruct (arp_socket_parse_result_cases cs this) as [Hbad | Hok].
  - rewrite Hbad in H0. discriminate.
  - destruct Hok as (_ & cp & value & pc & Hcp & Hv & _ & Hi & _).
    exists cp, value. split; [exact Hcp |]. split; [exact Hv |].
    unfold arp_socket_print. rewrite Hi. reflexivity.
Qed.

End ParseMore.

Lemma arp_socket_parse_opens_witness :
  (@arp_socket_parse (sample_parser_full 0 0)
     [("interface"%string, Some "eth0"%string)] (sample_listener_full 0 0)).2
  = [PPcapInit "eth0"; PSuidUp; PPcapOpen; PSuidDown; PApplyFilter "arp"]
  /\ secret (client (sock (@arp_socket_parse (sample_parser_full 0 0)
                             [("interface"%string, Some "eth0"%string)]
                             (sample_listener_full 0 0)).1.2))
       = Some "eth0"%string
  /\ nas_type (client (sock (@arp_socket_parse (sample_parser_full 0 0)
                               [("interface"%string, Some "eth0"%string)]
                               (sample_listener_full 0 0)).1.2))
       = Some "none"%string.
Proof.
  destruct (@arp_socket_parse_opens (sample_parser_full 0 0)
              [("interface"%string, Some "eth0"%string)]
              (sample_listener_full 0 0)
              ("interface"%string, Some "eth0"%string) "eth0"%string "eth0"%string)
    as (_ & Hc & _ & _ & _ & _ & _ & _ & _ & Hs & Hn & _);
    [reflexivity | reflexivity | reflexivity | reflexivity | cbn; lia | cbn; lia |].
  split; [exact Hc |]. split; [exact Hs | exact Hn].
Defined.

(** When [talloc_strdup] fails the listener is set up all the same, with
    a NULL NAS type. *)
Example arp_socket_parse_nomem :
  ((@arp_socket_parse sample_parser_nomem
      [("interface"%string, Some "eth0"%string)] sample_listener_nomem).1.1,
   nas_type (client (sock (@arp_socket_parse sample_parser_nomem
                             [("interface"%string, Some "eth0"%string)]
                             sample_listener_nomem).1.2)))
  = (0, None).
Proof. reflexivity. Qed.

Lemma arp_socket_parse_privileges_witness :
  (@arp_socket_parse (sample_parser_full (-1) 0)
     [("interface"%string, Some "eth0"%string)] (sample_listener_full (-1) 0)).1.1
  = -1
  /\ count_calls is_suid_up
       (@arp_socket_parse (sample_parser_full (-1) 0)
          [("interface"%string, Some "eth0"%string)]
          (sample_listener_full (-1) 0)).2 = 1%nat
  /\ count_calls is_suid_down
       (@arp_socket_parse (sample_parser_full (-1) 0)
          [("interface"%string, Some "eth0"%string)]
          (sample_listener_full (-1) 0)).2 = 0%nat.
Proof.
  apply (proj2 (proj2 (proj2
           (@arp_socket_parse_privileges (sample_parser_full (-1) 0)
              [("interface"%string, Some "eth0"%string)]
              (sample_listener_full (-1) 0))))
           ("interface"%string, Some "eth0"%string) "eth0"%string "eth0"%string);
    [reflexivity | reflexivity | reflexivity | reflexivity | cbn; lia].
Defined.

Lemma arp_socket_print_bounded_witness :
  exists out,
    @arp_socket_print (sample_parser 1)
      (@arp_socket_parse (sample_parser 1)
         [("interface"%string, Some "eth0"%string)] (sample_listener 1)).1.2 8
    = Some (1, out)
    /\ Z.of_nat (length out) <= 8.
Proof.
  destruct (@arp_socket_print_bounded (sample_parser 1)
              (@arp_socket_parse (sample_parser 1)
                 [("interface"%string, Some "eth0"%string)] (sample_listener 1)).1.2
              8 "eth0"%string)
    as (out & Hrun & Hlen & _); [reflexivity | lia |].
  exists out. split; [exact Hrun | exact Hlen].
Defined.

Lemma arp_socket_print_after_parse_witness :
  exists cp value,
    @cf_pair_find (sample_parser 1)
      [("interface"%string, Some "eth0"%string)] "interface" = Some cp
    /\ @cf_pair_value (sample_parser 1) cp = Some value
    /\ @arp_socket_print (sample_parser 1)
         (@arp_socket_parse (sample_parser 1)
            [("interface"%string, Some "eth0"%string)] (sample_listener 1)).1.2 32
       = Some (1, snprintf 32 (String.append "arp interface " value)).
Proof.
  apply (@arp_socket_print_after_parse (sample_parser 1)
           [("interface"%string, Some "eth0"%string)] (sample_listener 1) 32).
  reflexivity.
Defined.

(** A buffer of 8 bytes gets the first seven characters and the NUL; a
    buffer of 32 the whole text. *)
Example arp_socket_print_cut :
  (@arp_socket_print (sample_parser 1)
     (@arp_socket_parse (sample_parser 1)
        [("interface"%string, Some "eth0"%string)] (sample_listener 1)).1.2 8,
   @arp_socket_print (sample_parser 1)
     (@arp_socket_parse (sample_parser 1)
        [("interface"%string, Some "eth0"%string)] (sample_listener 1)).1.2 32)
  = (Some (1, list_ascii_of_string "arp int" ++ [Ascii.zero]),
     Some (1, list_ascii_of_string "arp interface eth0" ++ [Ascii.zero])).
Proof. reflexivity. Qed.

End ProtoArpSpec.
